(** * cfnrc: correlation of CloudFormation failures with CloudTrail events

    A shallow embedding of the packages [correlator], [extractor] and of the
    service-name helpers of [cloudtrail], with the properties of the
    correlation engine stated over it.

    Conventions of the embedding:
    - a Go [string] is a byte sequence, here a [string] of [ascii] bytes;
    - [time.Time] is an instant counted in nanoseconds from the zero time
      [time.Time{}]; [time.Duration] and [int] are 64-bit signed integers,
      carried in [Z] with the wrap-around of the arithmetic written out;
    - a [map[string]interface{}] is a [gmap string JValue] under an [option]
      ([None] is the nil map);
    - a pointer [*CloudTrailEvent] into the slice [trailEvents] is the index
      of the element together with the element it points to. *)

From Stdlib Require Import ZArith QArith Bool Ascii String List Lia.
From stdpp Require Import base option list strings gmap fin_maps.

Set Warnings "-register-all".

Local Open Scope string_scope.
Local Open Scope Z_scope.

(** ** 64-bit signed integers *)

Module Int64.

Definition min_int : Z := - 2 ^ 63.
Definition max_int : Z := 2 ^ 63 - 1.

Definition in_range (z : Z) : Prop := min_int <= z <= max_int.

(** Two's complement wrap-around of the mathematical result [z]. *)
Definition wrap (z : Z) : Z := (z + 2 ^ 63) mod 2 ^ 64 - 2 ^ 63.

Definition add (a b : Z) : Z := wrap (a + b).
Definition neg (a : Z) : Z := wrap (- a).

(** Saturation, as [time.Time.Sub] does with an unrepresentable result. *)
Definition saturate (z : Z) : Z :=
  if z <? min_int then min_int
  else if max_int <? z then max_int
  else z.

End Int64.

(** ** Package [time] *)

Module time.

(** A wall-clock instant, in nanoseconds since the zero time (timestamps
    decoded from the service responses carry no monotonic reading). *)
Definition Time : Type := Z.
Definition Duration : Type := Z.

Definition Nanosecond : Duration := 1.
Definition Second : Duration := 1000000000.
Definition Minute : Duration := 60 * Second.

Definition minDuration : Duration := Int64.min_int.
Definition maxDuration : Duration := Int64.max_int.

(** [t.Sub(u)]: the duration [t - u], or the minimum (maximum) duration
    when the difference cannot be stored in a [Duration]. *)
Definition Sub (t u : Time) : Duration := Int64.saturate (t - u).

End time.

(** ** Package [strings] on byte strings *)

Definition isUpperByte (c : ascii) : bool :=
  ((65 <=? N_of_ascii c) && (N_of_ascii c <=? 90))%N.

(** [c += 'a' - 'A'] for an upper-case ASCII letter. *)
Definition lowerByte (c : ascii) : ascii :=
  if isUpperByte c then ascii_of_N (N_of_ascii c + 32) else c.

Fixpoint isASCII (s : string) : bool :=
  match s with
  | EmptyString => true
  | String c rest => (N_of_ascii c <? 128)%N && isASCII rest
  end.

Fixpoint lowerASCII (s : string) : string :=
  match s with
  | EmptyString => EmptyString
  | String c rest => String (lowerByte c) (lowerASCII rest)
  end.

(** [strings.HasPrefix(s, p)]. *)
Fixpoint HasPrefix (s p : string) {struct p} : bool :=
  match p, s with
  | EmptyString, _ => true
  | String _ _, EmptyString => false
  | String a p', String b s' => Ascii.eqb a b && HasPrefix s' p'
  end.

(** [strings.Contains(s, substr)]: some suffix of [s] starts with
    [substr]. *)
Fixpoint Contains (s substr : string) : bool :=
  HasPrefix s substr ||
  match s with
  | EmptyString => false
  | String _ rest => Contains rest substr
  end.

(** The loop of [strings.Split(s, sep)] for a non-empty separator: cut at
    the leftmost occurrence of [sep], continue behind it.  [skip] counts the
    bytes of a separator still to be passed over and [cur] is the piece being
    collected. *)
Fixpoint splitFrom (sep : string) (skip : nat) (cur s : string) : list string :=
  match s with
  | EmptyString => [cur]
  | String c rest =>
      match skip with
      | S k => splitFrom sep k cur rest
      | O =>
          if HasPrefix s sep
          then cur :: splitFrom sep (String.length sep - 1) EmptyString rest
          else splitFrom sep 0 (cur ++ String c EmptyString) rest
      end
  end.

Definition Split (s sep : string) : list string := splitFrom sep 0 EmptyString s.

(** ** Package [analyzer]: the data model *)

(** A value of type [interface{}] as it occurs in a decoded JSON document. *)
Inductive JValue : Type :=
  | JNull
  | JBool (b : bool)
  | JNumber (x : Q)
  | JString (s : string)
  | JArray (l : list JValue)
  | JObject (m : gmap string JValue).

(** [map[string]interface{}]; [None] is the nil map. *)
Definition JMap : Type := option (gmap string JValue).

Record StackError : Type := mkStackError {
  Timestamp : time.Time;
  ResourceType : string;
  LogicalResourceId : string;
  ResourceStatus : string;
  ResourceStatusReason : string;
  EventId : string;
  IsGeneralServiceException : bool
}.

Record CloudTrailEvent : Type := mkCloudTrailEvent {
  EventTime : time.Time;
  EventName : string;
  EventSource : string;
  UserIdentity : JMap;
  ResponseElements : JMap;
  ErrorCode : string;
  ErrorMessage : string
}.

(** [*CloudTrailEvent] pointing at [trailEvents[i]]: the index and the
    element. *)
Definition EventPtr : Type := nat * CloudTrailEvent.

(** The fields [StackError] and [CloudTrailEvent] carry the prefix [CE_],
    their plain names being the types. *)
Record CorrelatedError : Type := mkCorrelatedError {
  CE_StackError : StackError;
  CE_CloudTrailEvent : option EventPtr;
  DetailedMessage : string
}.

(** [CorrelationConfig] of package [correlator]. *)
Record CorrelationConfig : Type := mkCorrelationConfig {
  TimeWindow : time.Duration
}.

(** ** Type assertions in comma-ok form

    [v.(T)] in the form [x, ok := v.(T)] yields the zero value of [T] and
    [false] when [v] is nil or holds another type.  A map index on a missing
    key yields the nil interface, here [None]. *)

Definition assertString (v : option JValue) : string * bool :=
  match v with
  | Some (JString s) => (s, true)
  | _ => (EmptyString, false)
  end.

Definition assertMap (v : option JValue) : gmap string JValue * bool :=
  match v with
  | Some (JObject m) => (m, true)
  | _ => (∅, false)
  end.

Section Model.

(** [strings.ToLower] maps a string with a byte outside ASCII through the
    Unicode case tables, [strings.Map(unicode.ToLower, s)].  The tables are
    not part of the program; that path is a parameter. *)
Variable unicodeLower : string -> string.

Definition ToLower (s : string) : string :=
  if isASCII s then lowerASCII s else unicodeLower s.

(** *** Package [cloudtrail] *)

Definition extractServiceName (resourceType : string) : string :=
  let parts := Split resourceType "::" in
  if (2 <=? length parts)%nat then
    let serviceName := ToLower (nth 1 parts EmptyString) in
    if String.eqb serviceName "wisdom" then "qconnect" else serviceName
  else EmptyString.

Definition matchesService (event : CloudTrailEvent) (serviceName : string) : bool :=
  let eventSource := ToLower (EventSource event) in
  Contains eventSource (ToLower serviceName).

(** *** Package [extractor] *)

Definition generalServiceExceptionPatterns : list string :=
  [ "GeneralServiceException";
    "General Service Exception";
    "Internal Failure";
    "InternalFailure";
    "Service returned error" ].

(** [extractor.IsGeneralServiceException]; the plain name is the field of
    [StackError]. *)
Definition IsGeneralServiceException_ (err : StackError) : bool :=
  let reason := ResourceStatusReason err in
  if String.eqb reason EmptyString then false
  else
    let reasonLower := ToLower reason in
    existsb (fun pattern => Contains reasonLower (ToLower pattern))
            generalServiceExceptionPatterns.

(** *** Package [correlator] *)

Definition DefaultTimeWindow : time.Duration := 5 * time.Minute.

Definition DefaultConfig : CorrelationConfig :=
  {| TimeWindow := DefaultTimeWindow |}.

(** The statement that asserts [v.(string)] in comma-ok form and returns
    the string when the assertion holds and the string is not empty:
    [Some msg] is the early return, [None] falls through. *)
Definition returnIfMessage (v : option JValue) : option string :=
  let '(msg, ok) := assertString v in
  if ok && negb (String.eqb msg EmptyString) then Some msg else None.

(** The block guarded by [errorObj, ok := v.(map[string]interface{})]. *)
Definition returnFromErrorObject (v : option JValue) : option string :=
  let '(errorObj, ok) := assertMap v in
  if ok then
    match returnIfMessage (errorObj !! "message") with
    | Some msg => Some msg
    | None => returnIfMessage (errorObj !! "Message")
    end
  else None.

Definition extractMessageFromResponseElements (responseElements : JMap) : string :=
  match responseElements with
  | None => EmptyString
  | Some m =>
      match returnIfMessage (m !! "message") with
      | Some msg => msg
      | None =>
      match returnIfMessage (m !! "Message") with
      | Some msg => msg
      | None =>
      match returnFromErrorObject (m !! "error") with
      | Some msg => msg
      | None =>
      match returnFromErrorObject (m !! "Error") with
      | Some msg => msg
      | None => EmptyString
      end end end end
  end.

Definition absTimeDiff (t1 t2 : time.Time) : time.Duration :=
  let diff := time.Sub t1 t2 in
  if diff <? 0 then Int64.neg diff else diff.

Definition hasErrorInformation (event : CloudTrailEvent) : bool :=
  if negb (String.eqb (ErrorCode event) EmptyString)
     || negb (String.eqb (ErrorMessage event) EmptyString)
  then true
  else
    match ResponseElements event with
    | Some _ =>
        let msg := extractMessageFromResponseElements (ResponseElements event) in
        negb (String.eqb msg EmptyString)
    | None => false
    end.

Definition extractDetailedMessage (event : CloudTrailEvent) : string :=
  if negb (String.eqb (ErrorMessage event) EmptyString) then ErrorMessage event
  else
    let fromResponse :=
      match ResponseElements event with
      | Some _ => extractMessageFromResponseElements (ResponseElements event)
      | None => EmptyString
      end in
    if negb (String.eqb fromResponse EmptyString) then fromResponse
    else if negb (String.eqb (ErrorCode event) EmptyString)
         then "Error code: " ++ ErrorCode event
         else EmptyString.

(** The [range] loop over the values of [ResponseElements]; it returns on
    the first string value that contains [resourceId], so its result does
    not depend on the iteration order. *)
Definition anyStringValueContains (m : gmap string JValue) (resourceId : string) : bool :=
  existsb (fun kv : string * JValue =>
             let '(strVal, ok) := assertString (Some (snd kv)) in
             if ok then Contains (ToLower strVal) resourceId else false)
          (map_to_list m).

Definition matchesResourceIdentifier (cfnError : StackError) (trailEvent : CloudTrailEvent) : bool :=
  if String.eqb (LogicalResourceId cfnError) EmptyString then false
  else
    let resourceId := ToLower (LogicalResourceId cfnError) in
    if Contains (ToLower (EventName trailEvent)) resourceId then true
    else if Contains (ToLower (ErrorMessage trailEvent)) resourceId then true
    else
      match ResponseElements trailEvent with
      | Some m => anyStringValueContains m resourceId
      | None => false
      end.

Definition matchesResourceType (cfnError : StackError) (trailEvent : CloudTrailEvent) : bool :=
  if String.eqb (ResourceType cfnError) EmptyString
     || String.eqb (EventSource trailEvent) EmptyString
  then false
  else
    let resourceType := ToLower (ResourceType cfnError) in
    let eventSource := ToLower (EventSource trailEvent) in
    let parts := Split resourceType "::" in
    if (2 <=? length parts)%nat then
      let serviceName := ToLower (nth 1 parts EmptyString) in
      Contains eventSource serviceName
    else false.

Definition calculateMatchScore (cfnError : StackError) (trailEvent : CloudTrailEvent) : Z :=
  if negb (hasErrorInformation trailEvent) then 0
  else
    let score := 0 + 1 in
    let score := if matchesResourceIdentifier cfnError trailEvent then score + 3 else score in
    let score := if matchesResourceType cfnError trailEvent then score + 2 else score in
    score.

(** The variables of the loop of [FindMatchingTrailEventWithConfig]. *)
Record MatchState : Type := mkMatchState {
  bestMatch : option EventPtr;
  bestScore : Z;
  bestTimeDiff : time.Duration
}.

(** One iteration, for [event := &trailEvents[i]]. *)
Definition matchStep (cfnError : StackError) (config : CorrelationConfig)
    (st : MatchState) (i : nat) (event : CloudTrailEvent) : MatchState :=
  let timeDiff := absTimeDiff (Timestamp cfnError) (EventTime event) in
  if TimeWindow config <? timeDiff then st
  else
    let score := calculateMatchScore cfnError event in
    if score =? 0 then st
    else if (bestScore st <? score)
            || ((score =? bestScore st) && (timeDiff <? bestTimeDiff st))
    then {| bestMatch := Some (i, event); bestScore := score; bestTimeDiff := timeDiff |}
    else st.

(** [for i := range trailEvents], entered at index [i] with the events
    from there on. *)
Fixpoint matchLoop (cfnError : StackError) (config : CorrelationConfig)
    (i : nat) (events : list CloudTrailEvent) (st : MatchState) : MatchState :=
  match events with
  | [] => st
  | event :: rest =>
      matchLoop cfnError config (S i) rest (matchStep cfnError config st i event)
  end.

Definition FindMatchingTrailEventWithConfig (cfnError : StackError)
    (trailEvents : list CloudTrailEvent) (config : CorrelationConfig) : option EventPtr :=
  if (length trailEvents =? 0)%nat then None
  else
    bestMatch
      (matchLoop cfnError config 0 trailEvents
         {| bestMatch := None;
            bestScore := 0;
            bestTimeDiff := Int64.add (TimeWindow config) 1 |}).

(** The body of the loop of [CorrelateErrorsWithConfig] for one error. *)
Definition correlateOne (trailEvents : list CloudTrailEvent) (config : CorrelationConfig)
    (cfnError : StackError) : CorrelatedError :=
  let correlated :=
    {| CE_StackError := cfnError;
       CE_CloudTrailEvent := None;
       DetailedMessage := ResourceStatusReason cfnError |} in
  match FindMatchingTrailEventWithConfig cfnError trailEvents config with
  | Some matchingEvent =>
      let detailedMsg := extractDetailedMessage (snd matchingEvent) in
      {| CE_StackError := CE_StackError correlated;
         CE_CloudTrailEvent := Some matchingEvent;
         DetailedMessage :=
           if negb (String.eqb detailedMsg EmptyString) then detailedMsg
           else DetailedMessage correlated |}
  | None => correlated
  end.

(** The loop appends one [CorrelatedError] per element of [cfnErrors]. *)
Fixpoint correlateLoop (trailEvents : list CloudTrailEvent) (config : CorrelationConfig)
    (cfnErrors : list StackError) (correlatedErrors : list CorrelatedError)
    : list CorrelatedError :=
  match cfnErrors with
  | [] => correlatedErrors
  | cfnError :: rest =>
      correlateLoop trailEvents config rest
        (correlatedErrors ++ [correlateOne trailEvents config cfnError])
  end.

Definition CorrelateErrorsWithConfig (cfnErrors : list StackError)
    (trailEvents : list CloudTrailEvent) (config : CorrelationConfig) : list CorrelatedError :=
  if (length cfnErrors =? 0)%nat then []
  else correlateLoop trailEvents config cfnErrors [].

Definition CorrelateErrors (cfnErrors : list StackError)
    (trailEvents : list CloudTrailEvent) : list CorrelatedError :=
  CorrelateErrorsWithConfig cfnErrors trailEvents DefaultConfig.


(** ** The specification's notions, stated independently of the code *)

(** [p] occurs in [s]. *)
Definition Substring (p s : string) : Prop :=
  exists a b : string, s = String.append a (String.append p b).

(** The pattern set of the Failure Classifier, lower-cased as the
    specification lists it. *)
Definition genericPatterns : list string :=
  [ "generalserviceexception";
    "general service exception";
    "internal failure";
    "internalfailure";
    "service returned error" ].

(** The Message Extractor's candidates in priority order: a key of the
    payload, or a key inside the nested object at a key of the payload. *)
Definition messagePaths : list (list string) :=
  [ ["message"]; ["Message"];
    ["error"; "message"]; ["error"; "Message"];
    ["Error"; "message"]; ["Error"; "Message"] ].

Definition valueAt (m : gmap string JValue) (path : list string) : option JValue :=
  match path with
  | [k] => m !! k
  | [k1; k2] =>
      match m !! k1 with
      | Some (JObject nested) => nested !! k2
      | _ => None
      end
  | _ => None
  end.

(** A candidate counts when it is a string and not empty. *)
Definition nonEmptyString (v : option JValue) : option string :=
  match v with
  | Some (JString s) => if String.eqb s EmptyString then None else Some s
  | _ => None
  end.

Fixpoint firstFound (candidates : list (option string)) : string :=
  match candidates with
  | [] => EmptyString
  | Some s :: _ => s
  | None :: rest => firstFound rest
  end.

Definition extractMessageSpec (payload : JMap) : string :=
  match payload with
  | None => EmptyString
  | Some m => firstFound (map (fun path => nonEmptyString (valueAt m path)) messagePaths)
  end.

(** The distance of two instants on the time line. *)
Definition timeDistance (t1 t2 : time.Time) : Z := Z.abs (t1 - t2).

(** The distance of two instants fits a [time.Duration] and its negation
    does too: less than about 292 years. *)
Definition representableDistance (t1 t2 : time.Time) : Prop :=
  timeDistance t1 t2 <= Int64.max_int.

(** The event carries error information, in the specification's words. *)
Definition carriesErrorInformation (event : CloudTrailEvent) : Prop :=
  ErrorCode event <> EmptyString
  \/ ErrorMessage event <> EmptyString
  \/ extractMessageFromResponseElements (ResponseElements event) <> EmptyString.

(** A candidate pair as the loop of [FindMatchingTrailEventWithConfig] sees
    it: inside the window by the computed difference, with a positive
    score. *)
Definition candidate (cfnError : StackError) (config : CorrelationConfig)
    (event : CloudTrailEvent) : Prop :=
  absTimeDiff (Timestamp cfnError) (EventTime event) <= TimeWindow config
  /\ 0 < calculateMatchScore cfnError event.

(** The event behind [p] is preferred to the event [other] at index [j]:
    it scores no lower; with equal scores it is no farther from the failure
    by the measure [dist]; with equal scores and distances it stands no
    later in the slice. *)
Definition preferred (dist : time.Time -> time.Time -> Z) (cfnError : StackError)
    (p : EventPtr) (j : nat) (other : CloudTrailEvent) : Prop :=
  calculateMatchScore cfnError other <= calculateMatchScore cfnError (snd p)
  /\ (calculateMatchScore cfnError other = calculateMatchScore cfnError (snd p) ->
      dist (Timestamp cfnError) (EventTime (snd p))
        <= dist (Timestamp cfnError) (EventTime other)
      /\ (dist (Timestamp cfnError) (EventTime other)
            = dist (Timestamp cfnError) (EventTime (snd p)) ->
          (fst p <= j)%nat)).

(** [p] points at a candidate of [trailEvents] that is preferred to every
    candidate of the slice. *)
Definition bestCandidate (dist : time.Time -> time.Time -> Z)
    (cfnError : StackError) (config : CorrelationConfig)
    (trailEvents : list CloudTrailEvent) (p : EventPtr) : Prop :=
  trailEvents !! fst p = Some (snd p)
  /\ candidate cfnError config (snd p)
  /\ forall (j : nat) (other : CloudTrailEvent),
       trailEvents !! j = Some other ->
       candidate cfnError config other ->
       preferred dist cfnError p j other.

(** What the loop variables say about the events seen so far. *)
Definition matchInv (cfnError : StackError) (config : CorrelationConfig)
    (seen : list CloudTrailEvent) (st : MatchState) : Prop :=
  match bestMatch st with
  | None =>
      bestScore st = 0
      /\ forall (j : nat) (other : CloudTrailEvent),
           seen !! j = Some other -> ~ candidate cfnError config other
  | Some p =>
      bestScore st = calculateMatchScore cfnError (snd p)
      /\ bestTimeDiff st = absTimeDiff (Timestamp cfnError) (EventTime (snd p))
      /\ bestCandidate absTimeDiff cfnError config seen p
  end.

(** ** Inputs used in the examples *)

(** The examples stay within ASCII, where [ToLower] never takes its
    Unicode path; they instantiate it with the identity. *)
Definition asciiOnly : string -> string := fun s => s.

(** [time.Time{}], which [safeTime] returns for a missing timestamp. *)
Definition zeroTime : time.Time := 0.

(** 2026-01-08 09:38:59 UTC. *)
Definition t_2026_01_08 : time.Time := 63903461939 * time.Second.

Definition plainFailure (timestamp : time.Time) (resourceType resourceId reason : string)
    : StackError :=
  {| Timestamp := timestamp;
     ResourceType := resourceType;
     LogicalResourceId := resourceId;
     ResourceStatus := "CREATE_FAILED";
     ResourceStatusReason := reason;
     EventId := "event-1";
     IsGeneralServiceException := false |}.

Definition plainEvent (eventTime : time.Time) (eventName eventSource : string)
    (payload : JMap) (errorCode errorMessage : string) : CloudTrailEvent :=
  {| EventTime := eventTime;
     EventName := eventName;
     EventSource := eventSource;
     UserIdentity := None;
     ResponseElements := payload;
     ErrorCode := errorCode;
     ErrorMessage := errorMessage |}.

Definition withReason (reason : string) : StackError :=
  plainFailure zeroTime EmptyString EmptyString reason.

(** The failure and the event of the example output in the README. *)
Definition wisdomFailure : StackError :=
  plainFailure t_2026_01_08 "AWS::Wisdom::AIPrompt" "WisdomPromptsQUERYREFORMULATION"
    "Resource handler returned message: GeneralServiceException".

Definition qconnectEvent : CloudTrailEvent :=
  plainEvent t_2026_01_08 "CreateAIPrompt" "qconnect.amazonaws.com" None
    "ConflictException" "Name is already in use".

(** A failure whose timestamp was missing, an event that lacks its time
    too, and an event of 2026. *)
Definition untimedFailure : StackError :=
  plainFailure zeroTime "AWS::Lambda::Function" "MyFunction" "GeneralServiceException".

Definition untimedEvent : CloudTrailEvent :=
  plainEvent zeroTime "CreateFunction" "lambda.amazonaws.com" None "AccessDenied" EmptyString.

Definition lateEvent : CloudTrailEvent :=
  plainEvent t_2026_01_08 "CreateFunction" "lambda.amazonaws.com" None
    "ConflictException" EmptyString.

(** The end-to-end scenario of the specification. *)
Definition widgetFailure : StackError :=
  plainFailure t_2026_01_08 "NS::Svc::Widget" "MyWidget" "GeneralServiceException".

Definition widgetEvent : CloudTrailEvent :=
  plainEvent (t_2026_01_08 + 2 * time.Minute) "CreateWidget" "svc.example.com" None
    EmptyString "Name already in use".

(** An event with no error information, and a failure with no logical
    resource id. *)
Definition silentEvent : CloudTrailEvent :=
  plainEvent t_2026_01_08 "DescribeWidget" "svc.example.com" None EmptyString EmptyString.

Definition anonymousFailure : StackError :=
  plainFailure t_2026_01_08 "NS::Svc::Widget" EmptyString EmptyString.

(** Payloads. *)
Definition payloadBoth : gmap string JValue :=
  <["message" := JString "top"]>
    (<["error" := JObject (<["message" := JString "nested"]> ∅)]> ∅).

Definition payloadMistyped : gmap string JValue :=
  <["message" := JNumber (42 # 1)]>
    (<["error" := JString "oops"]>
       (<["Error" := JObject (<["message" := JBool true]>
                               (<["Message" := JString "deep"]> ∅))]> ∅)).

(** ** The remaining functions of the packages *)

(** *** Package [correlator] *)

Definition FindMatchingTrailEvent (cfnError : StackError)
    (trailEvents : list CloudTrailEvent) : option EventPtr :=
  FindMatchingTrailEventWithConfig cfnError trailEvents DefaultConfig.

(** The loop of [FilterErrorEvents]: [errorEvents] grows by [append]. *)
Fixpoint filterErrorLoop (events errorEvents : list CloudTrailEvent)
    : list CloudTrailEvent :=
  match events with
  | [] => errorEvents
  | event :: rest =>
      filterErrorLoop rest
        (if hasErrorInformation event then (errorEvents ++ [event])%list else errorEvents)
  end.

Definition FilterErrorEvents (events : list CloudTrailEvent) : list CloudTrailEvent :=
  filterErrorLoop events [].

(** The named results of [GetCorrelationSummary], of type [int]. *)
Record Summary : Type := mkSummary {
  total : Z;
  withCloudTrail : Z;
  generalServiceExceptions : Z
}.

Definition summaryStep (st : Summary) (err : CorrelatedError) : Summary :=
  let st :=
    match CE_CloudTrailEvent err with
    | Some _ =>
        {| total := total st;
           withCloudTrail := Int64.add (withCloudTrail st) 1;
           generalServiceExceptions := generalServiceExceptions st |}
    | None => st
    end in
  if IsGeneralServiceException (CE_StackError err)
  then {| total := total st;
          withCloudTrail := withCloudTrail st;
          generalServiceExceptions := Int64.add (generalServiceExceptions st) 1 |}
  else st.

Definition GetCorrelationSummary (correlatedErrors : list CorrelatedError) : Summary :=
  fold_left summaryStep correlatedErrors
    {| total := Z.of_nat (length correlatedErrors);
       withCloudTrail := 0;
       generalServiceExceptions := 0 |}.

(** *** Package [cloudtrail] *)

Record TimeRange : Type := mkTimeRange {
  StartTime : time.Time;
  EndTime : time.Time
}.

(** [t.Add(d)] on wall-clock instants. *)
Definition timeAdd (t : time.Time) (d : time.Duration) : time.Time := t + d.

(** The loop of [SearchForStackErrors] that keeps the events of a
    service. *)
Fixpoint serviceLoop (serviceName : string) (events allEvents : list CloudTrailEvent)
    : list CloudTrailEvent :=
  match events with
  | [] => allEvents
  | event :: rest =>
      serviceLoop serviceName rest
        (if matchesService event serviceName then (allEvents ++ [event])%list
         else allEvents)
  end.

(** [SearchForStackErrors], with the method [SearchByUsername] of the client
    as the parameter [searchByUsername]: the events it returns, or the error
    of the lookup ([None] is the nil error). *)
Definition SearchForStackErrors {E : Type}
    (searchByUsername : TimeRange -> string -> list CloudTrailEvent * option E)
    (stackError : StackError) : list CloudTrailEvent * option E :=
  let timeRange :=
    {| StartTime := timeAdd (Timestamp stackError) (-10 * time.Minute);
       EndTime := timeAdd (Timestamp stackError) (10 * time.Minute) |} in
  let serviceName := extractServiceName (ResourceType stackError) in
  let '(events, err) := searchByUsername timeRange "AWSCloudFormation" in
  match err with
  | Some e => ([], Some e)
  | None =>
      let allEvents :=
        if negb (String.eqb serviceName EmptyString)
        then serviceLoop serviceName events []
        else events in
      (allEvents, None)
  end.

(** [safeString] and [safeTime]: a nil pointer is [None]. *)
Definition safeString (s : option string) : string :=
  match s with
  | None => EmptyString
  | Some v => v
  end.

Definition safeTime (t : option time.Time) : time.Time :=
  match t with
  | None => 0
  | Some v => v
  end.

(** The fields of the service's [types.Event] that [parseCloudTrailEvent]
    reads. *)
Record LookupEvent : Type := mkLookupEvent {
  LE_EventTime : option time.Time;
  LE_EventName : option string;
  LE_EventSource : option string;
  LE_CloudTrailEvent : option string
}.

(** [json.Unmarshal] of a text into a [map[string]interface{}]: the decoded
    map (nil for the JSON null), or the message of the decoding error.  The
    decoder is not part of the program. *)
Variable jsonUnmarshal : string -> JMap + string.

(** A map index that also reads the nil map. *)
Definition indexMap (m : JMap) (k : string) : option JValue :=
  match m with
  | None => None
  | Some entries => entries !! k
  end.

(** [parseCloudTrailEvent]; the error is given by its message. *)
Definition parseCloudTrailEvent (event : LookupEvent) : CloudTrailEvent * option string :=
  let ctEvent :=
    {| EventTime := safeTime (LE_EventTime event);
       EventName := safeString (LE_EventName event);
       EventSource := safeString (LE_EventSource event);
       UserIdentity := None;
       ResponseElements := None;
       ErrorCode := EmptyString;
       ErrorMessage := EmptyString |} in
  match LE_CloudTrailEvent event with
  | None => (ctEvent, None)
  | Some text =>
      match jsonUnmarshal text with
      | inr msg => (ctEvent, Some ("failed to parse CloudTrail event JSON: " ++ msg))
      | inl eventData =>
          let ctEvent :=
            let '(userIdentity, ok) := assertMap (indexMap eventData "userIdentity") in
            if ok
            then {| EventTime := EventTime ctEvent;
                    EventName := EventName ctEvent;
                    EventSource := EventSource ctEvent;
                    UserIdentity := Some userIdentity;
                    ResponseElements := ResponseElements ctEvent;
                    ErrorCode := ErrorCode ctEvent;
                    ErrorMessage := ErrorMessage ctEvent |}
            else ctEvent in
          let ctEvent :=
            let '(responseElements, ok) :=
              assertMap (indexMap eventData "responseElements") in
            if ok
            then {| EventTime := EventTime ctEvent;
                    EventName := EventName ctEvent;
                    EventSource := EventSource ctEvent;
                    UserIdentity := UserIdentity ctEvent;
                    ResponseElements := Some responseElements;
                    ErrorCode := ErrorCode ctEvent;
                    ErrorMessage := ErrorMessage ctEvent |}
            else ctEvent in
          let ctEvent :=
            let '(errorCode, ok) := assertString (indexMap eventData "errorCode") in
            if ok
            then {| EventTime := EventTime ctEvent;
                    EventName := EventName ctEvent;
                    EventSource := EventSource ctEvent;
                    UserIdentity := UserIdentity ctEvent;
                    ResponseElements := ResponseElements ctEvent;
                    ErrorCode := errorCode;
                    ErrorMessage := ErrorMessage ctEvent |}
            else ctEvent in
          let ctEvent :=
            let '(errorMessage, ok) := assertString (indexMap eventData "errorMessage") in
            if ok
            then {| EventTime := EventTime ctEvent;
                    EventName := EventName ctEvent;
                    EventSource := EventSource ctEvent;
                    UserIdentity := UserIdentity ctEvent;
                    ResponseElements := ResponseElements ctEvent;
                    ErrorCode := ErrorCode ctEvent;
                    ErrorMessage := errorMessage |}
            else ctEvent in
          (ctEvent, None)
      end
  end.

(** The loop that the search methods run over a page of the lookup:
    an event that does not parse is passed over. *)
Fixpoint appendParsed (page : list LookupEvent) (allEvents : list CloudTrailEvent)
    : list CloudTrailEvent :=
  match page with
  | [] => allEvents
  | event :: rest =>
      let '(ctEvent, err) := parseCloudTrailEvent event in
      match err with
      | Some _ => appendParsed rest allEvents
      | None => appendParsed rest (allEvents ++ [ctEvent])%list
      end
  end.

(** *** Package [extractor] *)

(** The fields of the service's [types.StackEvent] that [ExtractErrors]
    reads; [types.ResourceStatus] is a string type. *)
Record StackEvent : Type := mkStackEvent {
  SE_Timestamp : option time.Time;
  SE_ResourceType : option string;
  SE_LogicalResourceId : option string;
  SE_ResourceStatus : string;
  SE_ResourceStatusReason : option string;
  SE_EventId : option string
}.

(** The status constants of the service's package [types]. *)
Definition ResourceStatusCreateFailed : string := "CREATE_FAILED".
Definition ResourceStatusDeleteFailed : string := "DELETE_FAILED".
Definition ResourceStatusUpdateFailed : string := "UPDATE_FAILED".
Definition ResourceStatusImportFailed : string := "IMPORT_FAILED".
Definition ResourceStatusImportRollbackFailed : string := "IMPORT_ROLLBACK_FAILED".
Definition ResourceStatusRollbackFailed : string := "ROLLBACK_FAILED".

Definition failedStatuses : gmap string bool :=
  <[ResourceStatusCreateFailed := true]>
    (<[ResourceStatusDeleteFailed := true]>
       (<[ResourceStatusUpdateFailed := true]>
          (<[ResourceStatusImportFailed := true]>
             (<[ResourceStatusImportRollbackFailed := true]>
                (<[ResourceStatusRollbackFailed := true]> ∅))))).

(** A missing key reads as [false]. *)
Definition isFailedStatus (status : string) : bool :=
  match failedStatuses !! status with
  | Some b => b
  | None => false
  end.

(** The [StackError] that [ExtractErrors] builds from an event. *)
Definition toStackError (event : StackEvent) : StackError :=
  let stackError :=
    {| Timestamp := safeTime (SE_Timestamp event);
       ResourceType := safeString (SE_ResourceType event);
       LogicalResourceId := safeString (SE_LogicalResourceId event);
       ResourceStatus := SE_ResourceStatus event;
       ResourceStatusReason := safeString (SE_ResourceStatusReason event);
       EventId := safeString (SE_EventId event);
       IsGeneralServiceException := false |} in
  {| Timestamp := Timestamp stackError;
     ResourceType := ResourceType stackError;
     LogicalResourceId := LogicalResourceId stackError;
     ResourceStatus := ResourceStatus stackError;
     ResourceStatusReason := ResourceStatusReason stackError;
     EventId := EventId stackError;
     IsGeneralServiceException := IsGeneralServiceException_ stackError |}.

Fixpoint extractLoop (events : list StackEvent) (errors : list StackError)
    : list StackError :=
  match events with
  | [] => errors
  | event :: rest =>
      if negb (isFailedStatus (SE_ResourceStatus event))
      then extractLoop rest errors
      else extractLoop rest (errors ++ [toStackError event])%list
  end.

Definition ExtractErrors (events : list StackEvent) : list StackError :=
  extractLoop events [].

(** *** Package [main] *)

Definition Hour : time.Duration := 60 * time.Minute.

(** [time.Date(year, month, day, 0, 0, 0, 0, time.UTC)] for the date of
    [t] in UTC: the midnight that begins the day of [t].  The zero time is a
    midnight in UTC and a day has 24 hours, so this is [t] rounded down to a
    multiple of a day. *)
Definition startOfUTCDay (t : time.Time) : time.Time := (t / (24 * Hour)) * (24 * Hour).

(** [t.After(u)] and [t.Before(u)]. *)
Definition After (t u : time.Time) : bool := u <? t.



(** *** Package [validator] *)

Inductive ValidationError : Type :=
  | ErrEmptyStackName
  | ErrInvalidStackNameFormat
  | ErrStackNameTooLong.

Definition isLetterByte (c : ascii) : bool :=
  (((65 <=? N_of_ascii c) && (N_of_ascii c <=? 90))
   || ((97 <=? N_of_ascii c) && (N_of_ascii c <=? 122)))%N.

Definition isDigitByte (c : ascii) : bool :=
  ((48 <=? N_of_ascii c) && (N_of_ascii c <=? 57))%N.

Definition isNameByte (c : ascii) : bool :=
  isLetterByte c || isDigitByte c || (N_of_ascii c =? 45)%N.

Fixpoint allBytes (p : ascii -> bool) (s : string) : bool :=
  match s with
  | EmptyString => true
  | String c rest => p c && allBytes p rest
  end.

(** [stackNameRegex.MatchString]: the expression is a letter followed by
    letters, digits and hyphens, anchored at both ends of the text. *)
Definition stackNameRegexMatch (name : string) : bool :=
  match name with
  | EmptyString => false
  | String c rest => isLetterByte c && allBytes isNameByte rest
  end.

(** [ValidateStackName]; [None] is the nil error. *)
Definition ValidateStackName (name : string) : option ValidationError :=
  if String.eqb name EmptyString then Some ErrEmptyStackName
  else if (128 <? String.length name)%nat then Some ErrStackNameTooLong
  else if negb (stackNameRegexMatch name) then Some ErrInvalidStackNameFormat
  else None.

(** The fields of the service's [types.StackSummary] that [GetLatestStack]
    reads. *)
Record StackSummary : Type := mkStackSummary {
  SS_StackName : option string;
  SS_LastUpdatedTime : option time.Time;
  SS_CreationTime : option time.Time
}.

(** The variables [latestStackName] and [latestTime] of [GetLatestStack]. *)
Record LatestState : Type := mkLatestState {
  latestStackName : string;
  latestTime : time.Time
}.

(** The time of a summary: [LastUpdatedTime] if present, else
    [CreationTime]; [None] where the loop continues. *)
Definition stackTimeOf (summary : StackSummary) : option time.Time :=
  match SS_LastUpdatedTime summary with
  | Some t => Some t
  | None =>
      match SS_CreationTime summary with
      | Some t => Some t
      | None => None
      end
  end.

(** One iteration of the loop of [GetLatestStack] over the summaries of a
    page. *)
Definition latestStep (st : LatestState) (summary : StackSummary) : LatestState :=
  match stackTimeOf summary with
  | None => st
  | Some stackTime =>
      if After stackTime (latestTime st)
      then {| latestStackName :=
                match SS_StackName summary with
                | Some name => name
                | None => latestStackName st
                end;
              latestTime := stackTime |}
      else st
  end.

(** The loop over the summaries of the pages, from the initial values of
    the variables, and what [GetLatestStack] returns after it: the name, or
    [None] for [ErrNoStacksFound]. *)
Definition latestOf (summaries : list StackSummary) : LatestState :=
  fold_left latestStep summaries {| latestStackName := EmptyString; latestTime := 0 |}.

Definition latestResult (st : LatestState) : option string :=
  if String.eqb (latestStackName st) EmptyString then None
  else Some (latestStackName st).

(** ** Notions used in the statements about these functions *)

(** Two states of the selection loop that agree on everything but the
    index of the best match. *)
Definition sameChoice (st1 st2 : MatchState) : Prop :=
  option_map snd (bestMatch st1) = option_map snd (bestMatch st2)
  /\ bestScore st1 = bestScore st2
  /\ bestTimeDiff st1 = bestTimeDiff st2.

(** The test of the selection loop for a candidate, as a boolean. *)
Definition isCandidate (cfnError : StackError) (config : CorrelationConfig)
    (event : CloudTrailEvent) : bool :=
  (absTimeDiff (Timestamp cfnError) (EventTime event) <=? TimeWindow config)
  && (0 <? calculateMatchScore cfnError event).

(** The result has a matched event. *)
Definition hasTrail (r : CorrelatedError) : bool :=
  match CE_CloudTrailEvent r with
  | Some _ => true
  | None => false
  end.

(** The result's failure is flagged as generic. *)
Definition flagged (r : CorrelatedError) : bool :=
  IsGeneralServiceException (CE_StackError r).

(** The six statuses of [failedStatuses]. *)
Definition failedStatusList : list string :=
  [ ResourceStatusCreateFailed; ResourceStatusDeleteFailed; ResourceStatusUpdateFailed;
    ResourceStatusImportFailed; ResourceStatusImportRollbackFailed;
    ResourceStatusRollbackFailed ].

(** A stack name in the specification of [ValidateStackName]: one to 128
    bytes, a letter first, then letters, digits and hyphens. *)
Definition wellFormedStackName (name : string) : Prop :=
  (1 <= String.length name <= 128)%nat
  /\ exists (c : ascii) (rest : string),
       name = String c rest
       /\ isLetterByte c = true
       /\ allBytes isNameByte rest = true.

(** The object and the string that a decoded event holds at a key: nil and
    the empty string when the key is missing or holds another type. *)
Definition objectAt (eventData : JMap) (k : string) : JMap :=
  match indexMap eventData k with
  | Some (JObject o) => Some o
  | _ => None
  end.

Definition stringAt (eventData : JMap) (k : string) : string :=
  match indexMap eventData k with
  | Some (JString s) => s
  | _ => EmptyString
  end.

(** What the loop of [GetLatestStack] has established after the summaries
    [seen]: nothing was taken yet, or the name and the time are those of a
    summary seen. *)
Definition latestInv (seen : list StackSummary) (st : LatestState) : Prop :=
  (forall (summary : StackSummary) (t : time.Time),
     In summary seen -> stackTimeOf summary = Some t -> t <= latestTime st)
  /\ ((latestStackName st = EmptyString /\ latestTime st = 0)
      \/ exists summary : StackSummary,
           In summary seen
           /\ stackTimeOf summary = Some (latestTime st)
           /\ SS_StackName summary = Some (latestStackName st)).

(** More inputs for the examples. *)
Definition noDecoder : string -> JMap + string := fun _ => inr "no decoder".

Definition lambdaFailure : StackError :=
  plainFailure t_2026_01_08 "AWS::Lambda::Function" "MyFunction" "GeneralServiceException".

Definition lambdaEvent : CloudTrailEvent :=
  plainEvent (t_2026_01_08 + time.Minute) "CreateFunction" "lambda.amazonaws.com" None
    "ConflictException" EmptyString.

Definition failedStackEvent : StackEvent :=
  {| SE_Timestamp := Some t_2026_01_08;
     SE_ResourceType := Some "AWS::Lambda::Function";
     SE_LogicalResourceId := Some "MyFunction";
     SE_ResourceStatus := ResourceStatusCreateFailed;
     SE_ResourceStatusReason := Some "Internal Failure";
     SE_EventId := None |}.

(** A decoder that knows one text, for the examples. *)
Definition sampleDecoder : string -> JMap + string :=
  fun text =>
    if String.eqb text "sample"
    then inl (Some (<["errorCode" := JString "AccessDenied"]> ∅))
    else inr "invalid character".

Definition sampleLookupEvent : LookupEvent :=
  {| LE_EventTime := Some t_2026_01_08;
     LE_EventName := Some "CreateFunction";
     LE_EventSource := Some "lambda.amazonaws.com";
     LE_CloudTrailEvent := Some "sample" |}.

Definition sampleParsedEvent : CloudTrailEvent :=
  {| EventTime := t_2026_01_08;
     EventName := "CreateFunction";
     EventSource := "lambda.amazonaws.com";
     UserIdentity := None;
     ResponseElements := None;
     ErrorCode := "AccessDenied";
     ErrorMessage := EmptyString |}.

Definition widgetResult : CorrelatedError :=
  {| CE_StackError := widgetFailure;
     CE_CloudTrailEvent := Some (0%nat, widgetEvent);
     DetailedMessage := "Name already in use" |}.

Definition olderStack : StackSummary :=
  {| SS_StackName := Some "older";
     SS_LastUpdatedTime := None;
     SS_CreationTime := Some (t_2026_01_08 - 24 * Hour) |}.

Definition newerStack : StackSummary :=
  {| SS_StackName := Some "newer";
     SS_LastUpdatedTime := Some t_2026_01_08;
     SS_CreationTime := Some (t_2026_01_08 - 48 * Hour) |}.

Definition untimedStack : StackSummary :=
  {| SS_StackName := Some "untimed";
     SS_LastUpdatedTime := None;
     SS_CreationTime := None |}.

(** ** Byte strings *)

Lemma eqb_empty_true (s : string) : String.eqb s EmptyString = true <-> s = EmptyString.
Proof. apply String.eqb_eq. Qed.

Lemma eqb_empty_false (s : string) : String.eqb s EmptyString = false <-> s <> EmptyString.
Proof. apply String.eqb_neq. Qed.

Lemma nonempty_true (s : string) :
  negb (String.eqb s EmptyString) = true <-> s <> EmptyString.
Proof. rewrite negb_true_iff. apply eqb_empty_false. Qed.

Lemma HasPrefix_spec (p s : string) :
  HasPrefix s p = true <-> exists b : string, s = String.append p b.
Proof.
  revert s. induction p as [|a p IH]; intros s; simpl.
  - split; [intros _; exists s; reflexivity | reflexivity].
  - destruct s as [|c s]; simpl.
    + split; [discriminate | intros [b Hb]; discriminate].
    + rewrite andb_true_iff, Ascii.eqb_eq, IH. split.
      * intros [-> [b ->]]. exists b. reflexivity.
      * intros [b Hb]. injection Hb as -> ->. split; [reflexivity | exists b; reflexivity].
Qed.

Lemma Contains_spec (s p : string) : Contains s p = true <-> Substring p s.
Proof.
  unfold Substring. induction s as [|c s IH].
  - simpl. rewrite orb_false_r, HasPrefix_spec. split.
    + intros [b Hb]. exists EmptyString, b. exact Hb.
    + intros [a [b Hab]]. destruct a as [|x a]; [|discriminate].
      exists b. exact Hab.
  - cbn [Contains]. rewrite orb_true_iff, HasPrefix_spec, IH. split.
    + intros [[b Hb] | [a [b Hab]]].
      * exists EmptyString, b. exact Hb.
      * exists (String c a), b. simpl. rewrite Hab. reflexivity.
    + intros [a [b Hab]]. destruct a as [|x a].
      * left. exists b. exact Hab.
      * right. simpl in Hab. injection Hab as -> ->. exists a, b. reflexivity.
Qed.

Lemma Contains_empty (s : string) : Contains s EmptyString = true.
Proof. destruct s; reflexivity. Qed.

(** ** Durations *)

Lemma wrap_in_range (z : Z) : Int64.in_range z -> Int64.wrap z = z.
Proof.
  unfold Int64.in_range, Int64.wrap, Int64.min_int, Int64.max_int. intros H.
  rewrite Z.mod_small; lia.
Qed.

Lemma saturate_in_range (z : Z) : Int64.in_range z -> Int64.saturate z = z.
Proof.
  unfold Int64.in_range, Int64.saturate. intros H.
  destruct (Z.ltb_spec z Int64.min_int); [lia|].
  destruct (Z.ltb_spec Int64.max_int z); [lia|reflexivity].
Qed.

(** Within the representable range the computed difference is the
    distance. *)
Lemma absTimeDiff_representable (t1 t2 : time.Time) :
  representableDistance t1 t2 -> absTimeDiff t1 t2 = timeDistance t1 t2.
Proof.
  unfold representableDistance, timeDistance, absTimeDiff, time.Sub. intros H.
  assert (Hr : Int64.in_range (t1 - t2))
    by (unfold Int64.in_range, Int64.min_int, Int64.max_int in *; lia).
  rewrite (saturate_in_range _ Hr).
  destruct (Z.ltb_spec (t1 - t2) 0).
  - unfold Int64.neg. rewrite wrap_in_range; [lia|].
    unfold Int64.in_range, Int64.min_int, Int64.max_int in *; lia.
  - lia.
Qed.

(** An event 2^63 nanoseconds or more after the failure: the difference
    saturates at the minimum duration, whose negation overflows to itself. *)
Lemma absTimeDiff_overflow (t1 t2 : time.Time) :
  2 ^ 63 <= t2 - t1 -> absTimeDiff t1 t2 = time.minDuration.
Proof.
  unfold absTimeDiff, time.Sub, Int64.saturate, time.minDuration. intros H.
  destruct (Z.ltb_spec (t1 - t2) Int64.min_int) as [Hlt|Hge].
  - reflexivity.
  - assert (Heq : t1 - t2 = Int64.min_int) by (unfold Int64.min_int in *; lia).
    rewrite Heq. reflexivity.
Qed.

(** ** Error information of an event *)

Lemma extractMessage_nil : extractMessageFromResponseElements None = EmptyString.
Proof. reflexivity. Qed.

Lemma hasErrorInformation_spec (event : CloudTrailEvent) :
  hasErrorInformation event = true <-> carriesErrorInformation event.
Proof.
  unfold hasErrorInformation, carriesErrorInformation.
  destruct (String.eqb_spec (ErrorCode event) EmptyString) as [Hc|Hc];
    destruct (String.eqb_spec (ErrorMessage event) EmptyString) as [Hm|Hm]; simpl;
    try (split; [intros _; tauto | reflexivity]).
  destruct (ResponseElements event) as [m|] eqn:Hre.
  - rewrite nonempty_true. tauto.
  - rewrite extractMessage_nil. split; [discriminate | tauto].
Qed.

Lemma extractDetailedMessage_nonempty (event : CloudTrailEvent) :
  extractDetailedMessage event <> EmptyString <-> carriesErrorInformation event.
Proof.
  unfold extractDetailedMessage, carriesErrorInformation.
  assert (Hre : match ResponseElements event with
                | Some _ => extractMessageFromResponseElements (ResponseElements event)
                | None => EmptyString
                end = extractMessageFromResponseElements (ResponseElements event))
    by (destruct (ResponseElements event); reflexivity).
  rewrite Hre. clear Hre.
  destruct (String.eqb_spec (ErrorMessage event) EmptyString) as [Hm|Hm]; simpl;
    [|tauto].
  destruct (String.eqb_spec (extractMessageFromResponseElements (ResponseElements event))
              EmptyString) as [Hx|Hx]; simpl; [|tauto].
  destruct (String.eqb_spec (ErrorCode event) EmptyString) as [Hc|Hc]; simpl.
  - tauto.
  - split; [tauto | intros _; discriminate].
Qed.

(** ** The score *)

Lemma calculateMatchScore_cases (cfnError : StackError) (trailEvent : CloudTrailEvent) :
  calculateMatchScore cfnError trailEvent =
    if hasErrorInformation trailEvent
    then 1 + (if matchesResourceIdentifier cfnError trailEvent then 3 else 0)
           + (if matchesResourceType cfnError trailEvent then 2 else 0)
    else 0.
Proof.
  unfold calculateMatchScore.
  destruct (hasErrorInformation trailEvent); simpl; [|reflexivity].
  destruct (matchesResourceIdentifier cfnError trailEvent),
           (matchesResourceType cfnError trailEvent); reflexivity.
Qed.

Lemma calculateMatchScore_range (cfnError : StackError) (trailEvent : CloudTrailEvent) :
  0 <= calculateMatchScore cfnError trailEvent <= 6.
Proof.
  rewrite calculateMatchScore_cases.
  destruct (hasErrorInformation trailEvent),
           (matchesResourceIdentifier cfnError trailEvent),
           (matchesResourceType cfnError trailEvent); lia.
Qed.

Lemma calculateMatchScore_positive (cfnError : StackError) (trailEvent : CloudTrailEvent) :
  0 < calculateMatchScore cfnError trailEvent <-> hasErrorInformation trailEvent = true.
Proof.
  rewrite calculateMatchScore_cases.
  destruct (hasErrorInformation trailEvent),
           (matchesResourceIdentifier cfnError trailEvent),
           (matchesResourceType cfnError trailEvent); split; (lia || reflexivity || discriminate).
Qed.


(** ** The selection loop *)

Lemma candidate_dec (cfnError : StackError) (config : CorrelationConfig)
    (event : CloudTrailEvent) :
  candidate cfnError config event \/ ~ candidate cfnError config event.
Proof. unfold candidate. lia. Qed.

Lemma matchStep_skip (cfnError : StackError) (config : CorrelationConfig)
    (st : MatchState) (i : nat) (event : CloudTrailEvent) :
  ~ candidate cfnError config event ->
  matchStep cfnError config st i event = st.
Proof.
  unfold candidate, matchStep. intros Hn.
  destruct (Z.ltb_spec (TimeWindow config)
              (absTimeDiff (Timestamp cfnError) (EventTime event))); [reflexivity|].
  destruct (Z.eqb_spec (calculateMatchScore cfnError event) 0); [reflexivity|].
  pose proof (calculateMatchScore_range cfnError event). lia.
Qed.

Lemma matchStep_candidate (cfnError : StackError) (config : CorrelationConfig)
    (st : MatchState) (i : nat) (event : CloudTrailEvent) :
  candidate cfnError config event ->
  matchStep cfnError config st i event =
    if (bestScore st <? calculateMatchScore cfnError event)
       || ((calculateMatchScore cfnError event =? bestScore st)
           && (absTimeDiff (Timestamp cfnError) (EventTime event) <? bestTimeDiff st))
    then {| bestMatch := Some (i, event);
            bestScore := calculateMatchScore cfnError event;
            bestTimeDiff := absTimeDiff (Timestamp cfnError) (EventTime event) |}
    else st.
Proof.
  unfold candidate, matchStep. intros [Hw Hs].
  destruct (Z.ltb_spec (TimeWindow config)
              (absTimeDiff (Timestamp cfnError) (EventTime event))); [lia|].
  destruct (Z.eqb_spec (calculateMatchScore cfnError event) 0); [lia|reflexivity].
Qed.

(** The pointer kept by an iteration stays a best candidate when the new
    event, if a candidate, is not preferred to it. *)
Lemma bestCandidate_snoc_keep (dist : time.Time -> time.Time -> Z)
    (cfnError : StackError) (config : CorrelationConfig)
    (seen : list CloudTrailEvent) (event : CloudTrailEvent) (p : EventPtr) :
  bestCandidate dist cfnError config seen p ->
  (candidate cfnError config event -> preferred dist cfnError p (length seen) event) ->
  bestCandidate dist cfnError config (seen ++ [event]) p.
Proof.
  intros (Hl & Hc & Hall) Hnew. split; [|split].
  - apply lookup_app_l_Some. exact Hl.
  - exact Hc.
  - intros j other Hj Hcand.
    apply lookup_snoc_Some in Hj as [[_ Hj]|[-> <-]].
    + apply (Hall j other Hj Hcand).
    + apply Hnew. exact Hcand.
Qed.

(** The new event becomes the best candidate when it is preferred to all
    candidates seen before. *)
Lemma bestCandidate_snoc_new (dist : time.Time -> time.Time -> Z)
    (cfnError : StackError) (config : CorrelationConfig)
    (seen : list CloudTrailEvent) (event : CloudTrailEvent) :
  candidate cfnError config event ->
  (forall (j : nat) (other : CloudTrailEvent),
     seen !! j = Some other -> candidate cfnError config other ->
     preferred dist cfnError (length seen, event) j other) ->
  bestCandidate dist cfnError config (seen ++ [event]) (length seen, event).
Proof.
  intros Hc Hall. split; [|split].
  - simpl. apply list_lookup_middle. reflexivity.
  - exact Hc.
  - intros j other Hj Hcand.
    apply lookup_snoc_Some in Hj as [[_ Hj]|[-> <-]].
    + apply (Hall j other Hj Hcand).
    + unfold preferred. simpl. lia.
Qed.

Lemma matchInv_step (cfnError : StackError) (config : CorrelationConfig)
    (seen : list CloudTrailEvent) (st : MatchState) (event : CloudTrailEvent) :
  matchInv cfnError config seen st ->
  matchInv cfnError config (seen ++ [event])
    (matchStep cfnError config st (length seen) event).
Proof.
  intros Hinv.
  destruct (candidate_dec cfnError config event) as [Hc|Hc].
  - rewrite (matchStep_candidate _ _ _ _ _ Hc). unfold matchInv in *.
    destruct (bestMatch st) as [p|] eqn:Hbm.
    + destruct Hinv as (Hs & Ht & Hbest).
      pose proof Hbest as (Hl & _ & Hall). apply lookup_lt_Some in Hl.
      destruct (Z.ltb_spec (bestScore st) (calculateMatchScore cfnError event)) as [Hlt|Hge];
        [|destruct (Z.eqb_spec (calculateMatchScore cfnError event) (bestScore st)) as [Heq|Hne];
          [destruct (Z.ltb_spec (absTimeDiff (Timestamp cfnError) (EventTime event))
                       (bestTimeDiff st)) as [Hnear|Hfar]|]];
        simpl; rewrite ?Hbm.
      * split; [reflexivity|split; [reflexivity|]].
        apply bestCandidate_snoc_new; [exact Hc|].
        intros j other Hj Hcand. pose proof (Hall j other Hj Hcand) as Hp.
        unfold preferred in *. simpl. lia.
      * split; [reflexivity|split; [reflexivity|]].
        apply bestCandidate_snoc_new; [exact Hc|].
        intros j other Hj Hcand. pose proof (Hall j other Hj Hcand) as Hp.
        unfold preferred in *. simpl. lia.
      * split; [exact Hs|split; [exact Ht|]].
        apply bestCandidate_snoc_keep; [exact Hbest|].
        intros _. unfold preferred. lia.
      * split; [exact Hs|split; [exact Ht|]].
        apply bestCandidate_snoc_keep; [exact Hbest|].
        intros _. unfold preferred. lia.
    + destruct Hinv as [Hs Hnone]. pose proof Hc as [_ Hpos].
      destruct (Z.ltb_spec (bestScore st) (calculateMatchScore cfnError event)) as [Hlt|Hge];
        [|lia]. simpl.
      split; [reflexivity|split; [reflexivity|]].
      apply bestCandidate_snoc_new; [exact Hc|].
      intros j other Hj Hcand. exfalso. apply (Hnone j other Hj Hcand).
  - rewrite (matchStep_skip _ _ _ _ _ Hc). unfold matchInv in *.
    destruct (bestMatch st) as [p|].
    + destruct Hinv as (Hs & Ht & Hbest). split; [exact Hs|split; [exact Ht|]].
      apply bestCandidate_snoc_keep; [exact Hbest|]. intros Hc'. contradiction.
    + destruct Hinv as [Hs Hnone]. split; [exact Hs|].
      intros j other Hj. apply lookup_snoc_Some in Hj as [[_ Hj]|[_ <-]].
      * apply (Hnone j other Hj).
      * exact Hc.
Qed.

Lemma matchInv_loop (cfnError : StackError) (config : CorrelationConfig)
    (events seen : list CloudTrailEvent) (st : MatchState) :
  matchInv cfnError config seen st ->
  matchInv cfnError config (seen ++ events)
    (matchLoop cfnError config (length seen) events st).
Proof.
  revert seen st. induction events as [|event rest IH]; intros seen st Hinv; simpl.
  - rewrite app_nil_r. exact Hinv.
  - replace (seen ++ event :: rest)%list with ((seen ++ [event]) ++ rest)%list
      by (rewrite <- app_assoc; reflexivity).
    replace (S (length seen)) with (length (seen ++ [event])%list)
      by (rewrite length_app; simpl; lia).
    apply IH. apply matchInv_step. exact Hinv.
Qed.

Lemma FindMatching_unfold (cfnError : StackError) (trailEvents : list CloudTrailEvent)
    (config : CorrelationConfig) :
  FindMatchingTrailEventWithConfig cfnError trailEvents config =
    bestMatch (matchLoop cfnError config 0 trailEvents
                 {| bestMatch := None; bestScore := 0;
                    bestTimeDiff := Int64.add (TimeWindow config) 1 |}).
Proof.
  unfold FindMatchingTrailEventWithConfig. destruct trailEvents; reflexivity.
Qed.

Lemma FindMatching_inv (cfnError : StackError) (trailEvents : list CloudTrailEvent)
    (config : CorrelationConfig) :
  match FindMatchingTrailEventWithConfig cfnError trailEvents config with
  | Some p => bestCandidate absTimeDiff cfnError config trailEvents p
  | None => forall (j : nat) (other : CloudTrailEvent),
              trailEvents !! j = Some other -> ~ candidate cfnError config other
  end.
Proof.
  rewrite FindMatching_unfold.
  pose proof (matchInv_loop cfnError config trailEvents []
                {| bestMatch := None; bestScore := 0;
                   bestTimeDiff := Int64.add (TimeWindow config) 1 |}) as H.
  simpl in H. unfold matchInv in H.
  match goal with |- match ?b with _ => _ end => destruct b end.
  - apply H. simpl. split; [reflexivity|]. intros j other Hj. rewrite lookup_nil in Hj. discriminate.
  - apply H. simpl. split; [reflexivity|]. intros j other Hj. rewrite lookup_nil in Hj. discriminate.
Qed.

(** ** The correlation loop *)

Lemma correlateLoop_app (trailEvents : list CloudTrailEvent) (config : CorrelationConfig)
    (cfnErrors : list StackError) (acc : list CorrelatedError) :
  correlateLoop trailEvents config cfnErrors acc
    = (acc ++ map (correlateOne trailEvents config) cfnErrors)%list.
Proof.
  revert acc. induction cfnErrors as [|cfnError rest IH]; intros acc; simpl.
  - rewrite app_nil_r. reflexivity.
  - rewrite IH, <- app_assoc. reflexivity.
Qed.

Lemma CorrelateErrorsWithConfig_map (cfnErrors : list StackError)
    (trailEvents : list CloudTrailEvent) (config : CorrelationConfig) :
  CorrelateErrorsWithConfig cfnErrors trailEvents config
    = map (correlateOne trailEvents config) cfnErrors.
Proof.
  unfold CorrelateErrorsWithConfig. destruct cfnErrors as [|cfnError rest].
  - reflexivity.
  - cbn [length Nat.eqb]. rewrite correlateLoop_app. reflexivity.
Qed.

Lemma correlateOne_StackError (trailEvents : list CloudTrailEvent)
    (config : CorrelationConfig) (cfnError : StackError) :
  CE_StackError (correlateOne trailEvents config cfnError) = cfnError.
Proof.
  unfold correlateOne.
  destruct (FindMatchingTrailEventWithConfig cfnError trailEvents config); reflexivity.
Qed.

Lemma correlateOne_CloudTrailEvent (trailEvents : list CloudTrailEvent)
    (config : CorrelationConfig) (cfnError : StackError) :
  CE_CloudTrailEvent (correlateOne trailEvents config cfnError)
    = FindMatchingTrailEventWithConfig cfnError trailEvents config.
Proof.
  unfold correlateOne.
  destruct (FindMatchingTrailEventWithConfig cfnError trailEvents config); reflexivity.
Qed.

Lemma correlateOne_DetailedMessage (trailEvents : list CloudTrailEvent)
    (config : CorrelationConfig) (cfnError : StackError) :
  DetailedMessage (correlateOne trailEvents config cfnError) =
    match FindMatchingTrailEventWithConfig cfnError trailEvents config with
    | Some p =>
        if String.eqb (extractDetailedMessage (snd p)) EmptyString
        then ResourceStatusReason cfnError
        else extractDetailedMessage (snd p)
    | None => ResourceStatusReason cfnError
    end.
Proof.
  unfold correlateOne.
  destruct (FindMatchingTrailEventWithConfig cfnError trailEvents config) as [p|];
    [|reflexivity].
  simpl. destruct (String.eqb (extractDetailedMessage (snd p)) EmptyString); reflexivity.
Qed.

Lemma FindMatching_no_events (cfnError : StackError) (config : CorrelationConfig) :
  FindMatchingTrailEventWithConfig cfnError [] config = None.
Proof. reflexivity. Qed.

(** ** Properties of the correlation *)

(** C3. [CorrelateErrorsWithConfig] returns one [CorrelatedError] per element
    of [cfnErrors], in the order of [cfnErrors]: the results have the length
    of the input, the [StackError]s embedded in them are the input list
    itself, unchanged, and no failure gives no result. *)
Theorem C3_one_result_per_failure (cfnErrors : list StackError)
    (trailEvents : list CloudTrailEvent) (config : CorrelationConfig) :
  length (CorrelateErrorsWithConfig cfnErrors trailEvents config) = length cfnErrors
  /\ map CE_StackError (CorrelateErrorsWithConfig cfnErrors trailEvents config) = cfnErrors
  /\ CorrelateErrorsWithConfig [] trailEvents config = [].
Proof.
  rewrite CorrelateErrorsWithConfig_map. split; [|split].
  - apply length_map.
  - induction cfnErrors as [|cfnError rest IH]; simpl.
    + reflexivity.
    + rewrite correlateOne_StackError, IH. reflexivity.
  - reflexivity.
Qed.

(** C5. When no event is selected for the failure at position [i], in
    particular when there are no events at all, the result at position [i]
    has no matched event and its detailed message is the failure's reason,
    whatever that string is. *)
Theorem C5_no_match_keeps_reason (cfnErrors : list StackError)
    (trailEvents : list CloudTrailEvent) (config : CorrelationConfig)
    (i : nat) (cfnError : StackError) :
  cfnErrors !! i = Some cfnError ->
  trailEvents = [] \/ FindMatchingTrailEventWithConfig cfnError trailEvents config = None ->
  CorrelateErrorsWithConfig cfnErrors trailEvents config !! i =
    Some {| CE_StackError := cfnError;
            CE_CloudTrailEvent := None;
            DetailedMessage := ResourceStatusReason cfnError |}.
Proof.
  intros Hi Hnone.
  assert (Hfind : FindMatchingTrailEventWithConfig cfnError trailEvents config = None).
  { destruct Hnone as [-> | H]; [apply FindMatching_no_events | exact H]. }
  rewrite CorrelateErrorsWithConfig_map.
  change (map (correlateOne trailEvents config) cfnErrors)
    with (correlateOne trailEvents config <$> cfnErrors).
  rewrite list_lookup_fmap, Hi. simpl.
  unfold correlateOne. rewrite Hfind. reflexivity.
Qed.

(** C9. Every result of [CorrelateErrorsWithConfig] has as detailed message
    either the failure's reason or the non-empty message extracted from its
    matched event; and the detailed message is not empty when the reason is
    not empty or the matched event yields a message through its
    [ErrorMessage], its response elements or its [ErrorCode]. *)
Theorem C9_detailed_message_invariant (cfnErrors : list StackError)
    (trailEvents : list CloudTrailEvent) (config : CorrelationConfig)
    (r : CorrelatedError) :
  In r (CorrelateErrorsWithConfig cfnErrors trailEvents config) ->
  (DetailedMessage r = ResourceStatusReason (CE_StackError r)
   \/ exists p : EventPtr,
        CE_CloudTrailEvent r = Some p
        /\ extractDetailedMessage (snd p) <> EmptyString
        /\ DetailedMessage r = extractDetailedMessage (snd p))
  /\ (ResourceStatusReason (CE_StackError r) <> EmptyString
      \/ (exists p : EventPtr,
            CE_CloudTrailEvent r = Some p /\ carriesErrorInformation (snd p)) ->
      DetailedMessage r <> EmptyString).
Proof.
  rewrite CorrelateErrorsWithConfig_map, in_map_iff.
  intros (cfnError & <- & _).
  rewrite correlateOne_StackError, correlateOne_CloudTrailEvent,
    correlateOne_DetailedMessage.
  destruct (FindMatchingTrailEventWithConfig cfnError trailEvents config) as [p|].
  - destruct (String.eqb_spec (extractDetailedMessage (snd p)) EmptyString) as [He|He].
    + split; [left; reflexivity|].
      intros [Hr | (q & Hq & Hinfo)]; [exact Hr|].
      injection Hq as <-. apply extractDetailedMessage_nonempty in Hinfo. contradiction.
    + split; [right; exists p; auto|]. intros _. exact He.
  - split; [left; reflexivity|].
    intros [Hr | (q & Hq & _)]; [exact Hr | discriminate].
Qed.

(** C10. A failure with the empty [LogicalResourceId] never gets the
    resource-identifier bonus: although the substring test on the event name
    would succeed for the empty identifier, [matchesResourceIdentifier] is
    false for every event, and the score against any event is at most 3,
    the base 1 plus the 2 of the resource type. *)
Theorem C10_empty_resource_id_scores_at_most_3 (cfnError : StackError)
    (trailEvent : CloudTrailEvent) :
  LogicalResourceId cfnError = EmptyString ->
  Contains (ToLower (EventName trailEvent)) (ToLower (LogicalResourceId cfnError)) = true
  /\ matchesResourceIdentifier cfnError trailEvent = false
  /\ calculateMatchScore cfnError trailEvent <= 3
  /\ calculateMatchScore cfnError trailEvent =
       if hasErrorInformation trailEvent
       then 1 + (if matchesResourceType cfnError trailEvent then 2 else 0)
       else 0.
Proof.
  intros Hid.
  assert (Hm : matchesResourceIdentifier cfnError trailEvent = false).
  { unfold matchesResourceIdentifier. rewrite Hid. reflexivity. }
  split; [rewrite Hid; apply Contains_empty|].
  rewrite calculateMatchScore_cases, Hm.
  destruct (hasErrorInformation trailEvent), (matchesResourceType cfnError trailEvent);
    repeat split; lia.
Qed.

(** ** The message extractor *)

Lemma returnIfMessage_spec (v : option JValue) : returnIfMessage v = nonEmptyString v.
Proof.
  destruct v as [[| | |s| |]|]; try reflexivity.
  unfold returnIfMessage. simpl. destruct (String.eqb s EmptyString); reflexivity.
Qed.

Lemma returnFromErrorObject_spec (m : gmap string JValue) (k : string) :
  returnFromErrorObject (m !! k) =
    match nonEmptyString (valueAt m [k; "message"]) with
    | Some s => Some s
    | None => nonEmptyString (valueAt m [k; "Message"])
    end.
Proof.
  unfold valueAt, returnFromErrorObject.
  destruct (m !! k) as [[| | | | |nested]|]; simpl; try reflexivity.
  rewrite !returnIfMessage_spec. reflexivity.
Qed.

Lemma returnIfMessage_mistyped (v : option JValue) :
  (forall s : string, v <> Some (JString s)) -> returnIfMessage v = None.
Proof.
  intros H. destruct v as [[| | |s| |]|]; try reflexivity.
  exfalso. apply (H s). reflexivity.
Qed.

Lemma returnFromErrorObject_mistyped (v : option JValue) :
  (forall o : gmap string JValue, v <> Some (JObject o)) -> returnFromErrorObject v = None.
Proof.
  intros H. destruct v as [[| | | | |o]|]; try reflexivity.
  exfalso. apply (H o). reflexivity.
Qed.

(** The extractor reads its argument at four keys only. *)
Lemma extractMessage_ext (m1 m2 : gmap string JValue) :
  returnIfMessage (m1 !! "message") = returnIfMessage (m2 !! "message") ->
  returnIfMessage (m1 !! "Message") = returnIfMessage (m2 !! "Message") ->
  returnFromErrorObject (m1 !! "error") = returnFromErrorObject (m2 !! "error") ->
  returnFromErrorObject (m1 !! "Error") = returnFromErrorObject (m2 !! "Error") ->
  extractMessageFromResponseElements (Some m1) = extractMessageFromResponseElements (Some m2).
Proof.
  intros H1 H2 H3 H4. unfold extractMessageFromResponseElements.
  rewrite H1, H2, H3, H4. reflexivity.
Qed.

Lemma returnFromErrorObject_ext (o1 o2 : gmap string JValue) :
  returnIfMessage (o1 !! "message") = returnIfMessage (o2 !! "message") ->
  returnIfMessage (o1 !! "Message") = returnIfMessage (o2 !! "Message") ->
  returnFromErrorObject (Some (JObject o1)) = returnFromErrorObject (Some (JObject o2)).
Proof.
  intros H1 H2. unfold returnFromErrorObject. simpl. rewrite H1, H2. reflexivity.
Qed.

(** The code and the specification's search agree on every payload. *)
Lemma extractMessage_refines (payload : JMap) :
  extractMessageFromResponseElements payload = extractMessageSpec payload.
Proof.
  destruct payload as [m|]; [|reflexivity].
  unfold extractMessageFromResponseElements, extractMessageSpec, messagePaths.
  rewrite !returnIfMessage_spec, !returnFromErrorObject_spec.
  cbn [map firstFound].
  change (valueAt m ["message"]) with (m !! "message").
  change (valueAt m ["Message"]) with (m !! "Message").
  destruct (nonEmptyString (m !! "message")); [reflexivity|].
  destruct (nonEmptyString (m !! "Message")); [reflexivity|].
  destruct (nonEmptyString (valueAt m ["error"; "message"])); [reflexivity|].
  destruct (nonEmptyString (valueAt m ["error"; "Message"])); [reflexivity|].
  destruct (nonEmptyString (valueAt m ["Error"; "message"])); [reflexivity|].
  destruct (nonEmptyString (valueAt m ["Error"; "Message"])); reflexivity.
Qed.

(** C6. [extractMessageFromResponseElements] returns the first non-empty
    string among the candidates in the fixed order: key [message], key
    [Message], then [message] and [Message] inside the object at key [error],
    then the same inside the object at key [Error]; the empty string when
    there is none.  So a non-empty string at the top-level key [message] is
    returned even when the object at [error] holds a non-empty [message]. *)
Theorem C6_extractMessage_priority (payload : JMap) :
  extractMessageFromResponseElements payload = extractMessageSpec payload
  /\ (forall (m errorObj : gmap string JValue) (top nested : string),
        payload = Some m ->
        m !! "message" = Some (JString top) -> top <> EmptyString ->
        m !! "error" = Some (JObject errorObj) ->
        errorObj !! "message" = Some (JString nested) -> nested <> EmptyString ->
        extractMessageFromResponseElements payload = top).
Proof.
  split.
  - apply extractMessage_refines.
  - intros m errorObj top nested -> Htop Hne _ _ _.
    unfold extractMessageFromResponseElements, returnIfMessage.
    rewrite Htop. simpl.
    apply eqb_empty_false in Hne. rewrite Hne. reflexivity.
Qed.

(** C7. The extractor is a total function with the empty string as its
    last resort: the nil payload gives the empty string; a value of another
    type than string at [message] or [Message], or of another type than
    object at [error] or [Error], or of another type than string at
    [message] or [Message] inside such an object, is read as if that key were
    missing, so that the search goes on with the next candidate; and a
    payload without any candidate gives the empty string.  (The type
    assertions are in comma-ok form and the map reads are on possibly missing
    keys: neither panics.) *)
Theorem C7_extractMessage_total :
  extractMessageFromResponseElements None = EmptyString
  /\ (forall (m : gmap string JValue) (k : string) (v : JValue),
        k = "message" \/ k = "Message" ->
        m !! k = Some v -> (forall s : string, v <> JString s) ->
        extractMessageFromResponseElements (Some m)
          = extractMessageFromResponseElements (Some (delete k m)))
  /\ (forall (m : gmap string JValue) (k : string) (v : JValue),
        k = "error" \/ k = "Error" ->
        m !! k = Some v -> (forall o : gmap string JValue, v <> JObject o) ->
        extractMessageFromResponseElements (Some m)
          = extractMessageFromResponseElements (Some (delete k m)))
  /\ (forall (m o : gmap string JValue) (k k' : string) (v : JValue),
        k = "error" \/ k = "Error" ->
        m !! k = Some (JObject o) ->
        k' = "message" \/ k' = "Message" ->
        o !! k' = Some v -> (forall s : string, v <> JString s) ->
        extractMessageFromResponseElements (Some m)
          = extractMessageFromResponseElements (Some (<[k := JObject (delete k' o)]> m)))
  /\ (forall m : gmap string JValue,
        (forall path : list string,
           In path messagePaths -> nonEmptyString (valueAt m path) = None) ->
        extractMessageFromResponseElements (Some m) = EmptyString).
Proof.
  split; [reflexivity|]. split; [|split; [|split]].
  - intros m k v Hk Hv Hty.
    assert (Hnone : returnIfMessage (Some v) = None)
      by (apply returnIfMessage_mistyped; intros s [= ->]; apply (Hty s); reflexivity).
    destruct Hk as [-> | ->]; apply extractMessage_ext;
      rewrite ?lookup_delete_eq, ?lookup_delete_ne by discriminate;
      rewrite ?Hv, ?Hnone; reflexivity.
  - intros m k v Hk Hv Hty.
    assert (Hnone : returnFromErrorObject (Some v) = None)
      by (apply returnFromErrorObject_mistyped; intros o [= ->]; apply (Hty o); reflexivity).
    destruct Hk as [-> | ->]; apply extractMessage_ext;
      rewrite ?lookup_delete_eq, ?lookup_delete_ne by discriminate;
      rewrite ?Hv, ?Hnone; reflexivity.
  - intros m o k k' v Hk Ho Hk' Hv Hty.
    assert (Hnone : returnIfMessage (Some v) = None)
      by (apply returnIfMessage_mistyped; intros s [= ->]; apply (Hty s); reflexivity).
    assert (Hobj : returnFromErrorObject (Some (JObject o))
                   = returnFromErrorObject (Some (JObject (delete k' o)))).
    { destruct Hk' as [-> | ->]; apply returnFromErrorObject_ext;
        rewrite ?lookup_delete_eq, ?lookup_delete_ne by discriminate;
        rewrite ?Hv, ?Hnone; reflexivity. }
    destruct Hk as [-> | ->]; apply extractMessage_ext;
      rewrite ?lookup_insert_eq, ?lookup_insert_ne by discriminate;
      rewrite ?Ho, ?Hobj; reflexivity.
  - intros m Hall. rewrite extractMessage_refines.
    unfold extractMessageSpec, messagePaths. cbn [map firstFound].
    rewrite !Hall by (simpl; tauto). reflexivity.
Qed.

(** ** The failure classifier *)

Lemma patterns_lower : map ToLower generalServiceExceptionPatterns = genericPatterns.
Proof. vm_compute. reflexivity. Qed.

(** C8. [IsGeneralServiceException] is false for the empty reason, and for
    another reason it is true exactly when the lower-cased reason contains
    one of the five lower-case patterns; it is false for the empty reason,
    true for the reason "Internal Failure occurred" and false for the reason
    "ROLLBACK_COMPLETE because policy X denied". *)
Theorem C8_isGenericFailure (err : StackError) :
  (IsGeneralServiceException_ err = true <->
     ResourceStatusReason err <> EmptyString
     /\ exists p : string,
          In p genericPatterns /\ Substring p (ToLower (ResourceStatusReason err)))
  /\ IsGeneralServiceException_ (withReason EmptyString) = false
  /\ IsGeneralServiceException_ (withReason "Internal Failure occurred") = true
  /\ IsGeneralServiceException_ (withReason "ROLLBACK_COMPLETE because policy X denied")
       = false.
Proof.
  split; [|repeat split; vm_compute; reflexivity].
  unfold IsGeneralServiceException_.
  destruct (String.eqb_spec (ResourceStatusReason err) EmptyString) as [He|He].
  - split; [discriminate | intros [H _]; contradiction].
  - rewrite existsb_exists. split.
    + intros (pat & Hin & Hc). split; [exact He|].
      exists (ToLower pat). split.
      * rewrite <- patterns_lower. apply in_map. exact Hin.
      * apply Contains_spec. exact Hc.
    + intros (_ & p & Hin & Hsub).
      rewrite <- patterns_lower in Hin. apply in_map_iff in Hin as (pat & <- & Hin).
      exists pat. split; [exact Hin|]. apply Contains_spec. exact Hsub.
Qed.

(** ** The service-name renaming *)

(** C1. The score of the README's failure on [AWS::Wisdom::AIPrompt]
    against its event from [qconnect.amazonaws.com]: [matchesResourceType]
    looks for "wisdom" in the event source and is false, so the score is the
    base 1, without the 2 of the resource type.  The renaming of "wisdom" to
    "qconnect" is applied by [extractServiceName] of package [cloudtrail],
    whose result [matchesService] finds in the event source. *)
Theorem C1_scorer_does_not_rename_service :
  matchesResourceType wisdomFailure qconnectEvent = false
  /\ matchesResourceIdentifier wisdomFailure qconnectEvent = false
  /\ calculateMatchScore wisdomFailure qconnectEvent = 1
  /\ extractServiceName (ResourceType wisdomFailure) = "qconnect"
  /\ matchesService qconnectEvent (extractServiceName (ResourceType wisdomFailure)) = true.
Proof. repeat split; vm_compute; reflexivity. Qed.

(** [matchesResourceType] on every input: the second segment of the
    lower-cased resource type, lower-cased, is looked for in the lower-cased
    event source as it stands. *)
Theorem matchesResourceType_spec (cfnError : StackError) (trailEvent : CloudTrailEvent) :
  matchesResourceType cfnError trailEvent = true <->
    ResourceType cfnError <> EmptyString
    /\ EventSource trailEvent <> EmptyString
    /\ exists serviceName : string,
         Split (ToLower (ResourceType cfnError)) "::" !! 1%nat = Some serviceName
         /\ Substring (ToLower serviceName) (ToLower (EventSource trailEvent)).
Proof.
  unfold matchesResourceType.
  destruct (String.eqb_spec (ResourceType cfnError) EmptyString) as [Hr|Hr]; simpl.
  { split; [discriminate | intros (H & _); contradiction]. }
  destruct (String.eqb_spec (EventSource trailEvent) EmptyString) as [He|He]; simpl.
  { split; [discriminate | intros (_ & H & _); contradiction]. }
  destruct (Split (ToLower (ResourceType cfnError)) "::") as [|first [|second rest]]; simpl.
  - split; [discriminate | intros (_ & _ & seg & Hseg & _); discriminate].
  - split; [discriminate | intros (_ & _ & seg & Hseg & _); discriminate].
  - rewrite Contains_spec. split.
    + intros H. split; [exact Hr|]. split; [exact He|]. exists second. split; [reflexivity|exact H].
    + intros (_ & _ & seg & [= <-] & H). exact H.
Qed.

(** ** Selection, by the computed difference and by the distance *)

(** The pointer returned is a best candidate by the difference that
    [absTimeDiff] computes, and nil is returned only when no event is a
    candidate. *)
Theorem FindMatching_selects_best (cfnError : StackError)
    (trailEvents : list CloudTrailEvent) (config : CorrelationConfig) :
  match FindMatchingTrailEventWithConfig cfnError trailEvents config with
  | Some p => bestCandidate absTimeDiff cfnError config trailEvents p
  | None => forall (j : nat) (other : CloudTrailEvent),
              trailEvents !! j = Some other -> ~ candidate cfnError config other
  end.
Proof. apply FindMatching_inv. Qed.

(** A matched event passed the window test on the computed difference and
    carries error information. *)
Theorem FindMatching_event_has_error_information (cfnError : StackError)
    (trailEvents : list CloudTrailEvent) (config : CorrelationConfig) (p : EventPtr) :
  FindMatchingTrailEventWithConfig cfnError trailEvents config = Some p ->
  trailEvents !! fst p = Some (snd p)
  /\ absTimeDiff (Timestamp cfnError) (EventTime (snd p)) <= TimeWindow config
  /\ carriesErrorInformation (snd p).
Proof.
  intros H. pose proof (FindMatching_inv cfnError trailEvents config) as Hinv.
  rewrite H in Hinv. destruct Hinv as (Hl & [Hw Hs] & _).
  split; [exact Hl|]. split; [exact Hw|].
  apply hasErrorInformation_spec, (calculateMatchScore_positive cfnError). exact Hs.
Qed.

(** When every event is less than 2^63 nanoseconds away from the failure,
    the computed difference is the distance: the matched event is within
    the window, and it is the candidate of the highest score, among those
    the nearest, among those the first. *)
Theorem FindMatching_selects_nearest_when_representable (cfnError : StackError)
    (trailEvents : list CloudTrailEvent) (config : CorrelationConfig) (p : EventPtr) :
  (forall (j : nat) (other : CloudTrailEvent),
     trailEvents !! j = Some other ->
     representableDistance (Timestamp cfnError) (EventTime other)) ->
  FindMatchingTrailEventWithConfig cfnError trailEvents config = Some p ->
  timeDistance (Timestamp cfnError) (EventTime (snd p)) <= TimeWindow config
  /\ bestCandidate timeDistance cfnError config trailEvents p.
Proof.
  intros Hrep H. pose proof (FindMatching_inv cfnError trailEvents config) as Hinv.
  rewrite H in Hinv. destruct Hinv as (Hl & Hc & Hall).
  pose proof (absTimeDiff_representable _ _ (Hrep _ _ Hl)) as Hp.
  split; [rewrite <- Hp; apply Hc|].
  split; [exact Hl|]. split; [exact Hc|].
  intros j other Hj Hcand. pose proof (Hall j other Hj Hcand) as Hpref.
  pose proof (absTimeDiff_representable _ _ (Hrep _ _ Hj)) as Ho.
  unfold preferred in *. rewrite <- Hp, <- Ho. exact Hpref.
Qed.

(** Some event is returned as soon as one is a candidate. *)
Theorem FindMatching_finds_a_candidate (cfnError : StackError)
    (trailEvents : list CloudTrailEvent) (config : CorrelationConfig)
    (j : nat) (event : CloudTrailEvent) :
  trailEvents !! j = Some event ->
  candidate cfnError config event ->
  exists p : EventPtr, FindMatchingTrailEventWithConfig cfnError trailEvents config = Some p.
Proof.
  intros Hj Hc. pose proof (FindMatching_inv cfnError trailEvents config) as Hinv.
  destruct (FindMatchingTrailEventWithConfig cfnError trailEvents config) as [p|].
  - exists p. reflexivity.
  - exfalso. apply (Hinv j event Hj Hc).
Qed.

(** ** The overflow of [absTimeDiff] *)

(** C2. A failure without timestamp, an event without time and an event of
    2026, both events with the same score: the event of 2026, whose
    difference overflows to the minimum duration, is selected before the
    event at distance zero. *)
Theorem C2_overflowed_difference_wins_the_tie :
  FindMatchingTrailEventWithConfig untimedFailure [untimedEvent; lateEvent] DefaultConfig
    = Some (1%nat, lateEvent)
  /\ calculateMatchScore untimedFailure untimedEvent
       = calculateMatchScore untimedFailure lateEvent
  /\ timeDistance (Timestamp untimedFailure) (EventTime untimedEvent) = 0
  /\ TimeWindow DefaultConfig
       < timeDistance (Timestamp untimedFailure) (EventTime lateEvent)
  /\ absTimeDiff (Timestamp untimedFailure) (EventTime lateEvent) = time.minDuration
  /\ ~ bestCandidate timeDistance untimedFailure DefaultConfig
         [untimedEvent; lateEvent] (1%nat, lateEvent).
Proof.
  split; [vm_compute; reflexivity|].
  split; [vm_compute; reflexivity|].
  split; [reflexivity|].
  split; [vm_compute; reflexivity|].
  split; [vm_compute; reflexivity|].
  intros (_ & _ & Hall).
  assert (Hc : candidate untimedFailure DefaultConfig untimedEvent).
  { split; [vm_compute; discriminate | vm_compute; reflexivity]. }
  destruct (Hall 0%nat untimedEvent eq_refl Hc) as [_ Htie].
  destruct (Htie ltac:(vm_compute; reflexivity)) as [Hd _].
  vm_compute in Hd. apply Hd. reflexivity.
Qed.

(** C4. A failure without timestamp and a single event of 2026 that
    carries an error code: the event is matched under the default window of
    five minutes, more than two thousand years away from the failure. *)
Theorem C4_match_outside_the_window :
  CorrelateErrorsWithConfig [untimedFailure] [lateEvent] DefaultConfig
    = [ {| CE_StackError := untimedFailure;
           CE_CloudTrailEvent := Some (0%nat, lateEvent);
           DetailedMessage := "Error code: ConflictException" |} ]
  /\ TimeWindow DefaultConfig
       < timeDistance (Timestamp untimedFailure) (EventTime lateEvent)
  /\ absTimeDiff (Timestamp untimedFailure) (EventTime lateEvent) = time.minDuration.
Proof. repeat split; vm_compute; reflexivity. Qed.

(** ** [FilterErrorEvents] *)

Lemma filterErrorLoop_app (events acc : list CloudTrailEvent) :
  filterErrorLoop events acc = (acc ++ List.filter hasErrorInformation events)%list.
Proof.
  revert acc. induction events as [|event rest IH]; intros acc; simpl.
  - rewrite app_nil_r. reflexivity.
  - rewrite IH. destruct (hasErrorInformation event); [|reflexivity].
    rewrite <- app_assoc. reflexivity.
Qed.

Lemma FilterErrorEvents_filter (events : list CloudTrailEvent) :
  FilterErrorEvents events = List.filter hasErrorInformation events.
Proof. unfold FilterErrorEvents. rewrite filterErrorLoop_app. reflexivity. Qed.




(** An event without error information leaves the loop variables as they
    are. *)
Lemma matchStep_no_error_information (cfnError : StackError) (config : CorrelationConfig)
    (st : MatchState) (i : nat) (event : CloudTrailEvent) :
  hasErrorInformation event = false ->
  matchStep cfnError config st i event = st.
Proof.
  intros H. apply matchStep_skip. intros [_ Hpos].
  apply calculateMatchScore_positive in Hpos. congruence.
Qed.

Lemma matchStep_sameChoice (cfnError : StackError) (config : CorrelationConfig)
    (st1 st2 : MatchState) (i j : nat) (event : CloudTrailEvent) :
  sameChoice st1 st2 ->
  sameChoice (matchStep cfnError config st1 i event)
             (matchStep cfnError config st2 j event).
Proof.
  intros (Hm & Hs & Ht). unfold matchStep. rewrite Hs, Ht.
  destruct (TimeWindow config <? absTimeDiff (Timestamp cfnError) (EventTime event));
    [repeat split; assumption|].
  destruct (calculateMatchScore cfnError event =? 0); [repeat split; assumption|].
  destruct ((bestScore st2 <? calculateMatchScore cfnError event)
            || (calculateMatchScore cfnError event =? bestScore st2)
               && (absTimeDiff (Timestamp cfnError) (EventTime event) <? bestTimeDiff st2));
    repeat split; assumption || reflexivity.
Qed.

Lemma matchLoop_filter_sameChoice (cfnError : StackError) (config : CorrelationConfig)
    (events : list CloudTrailEvent) (i j : nat) (st1 st2 : MatchState) :
  sameChoice st1 st2 ->
  sameChoice (matchLoop cfnError config i events st1)
             (matchLoop cfnError config j (List.filter hasErrorInformation events) st2).
Proof.
  revert i j st1 st2. induction events as [|event rest IH]; intros i j st1 st2 Hsame; simpl.
  - exact Hsame.
  - destruct (hasErrorInformation event) eqn:He; simpl.
    + apply IH. apply matchStep_sameChoice. exact Hsame.
    + rewrite (matchStep_no_error_information _ _ _ _ _ He). apply IH. exact Hsame.
Qed.

(** Filtering the events with [FilterErrorEvents] before the correlation
    does not change the event that is matched for a failure (its index in
    the slice moves with the events removed before it). *)
Theorem FindMatching_after_FilterErrorEvents (cfnError : StackError)
    (trailEvents : list CloudTrailEvent) (config : CorrelationConfig) :
  option_map snd
    (FindMatchingTrailEventWithConfig cfnError (FilterErrorEvents trailEvents) config)
  = option_map snd (FindMatchingTrailEventWithConfig cfnError trailEvents config).
Proof.
  rewrite !FindMatching_unfold, FilterErrorEvents_filter. symmetry.
  apply matchLoop_filter_sameChoice. repeat split.
Qed.

(** ** [GetCorrelationSummary] *)

Lemma summary_fold (rs : list CorrelatedError) (st : Summary) :
  0 <= withCloudTrail st ->
  0 <= generalServiceExceptions st ->
  withCloudTrail st + Z.of_nat (length rs) <= Int64.max_int ->
  generalServiceExceptions st + Z.of_nat (length rs) <= Int64.max_int ->
  total (fold_left summaryStep rs st) = total st
  /\ withCloudTrail (fold_left summaryStep rs st)
       = withCloudTrail st + Z.of_nat (length (List.filter hasTrail rs))
  /\ generalServiceExceptions (fold_left summaryStep rs st)
       = generalServiceExceptions st + Z.of_nat (length (List.filter flagged rs)).
Proof.
  revert st. induction rs as [|r rs IH]; intros st Hw Hg Hwb Hgb.
  - simpl. lia.
  - cbn [fold_left]. cbn [length] in Hwb, Hgb.
    assert (Hstep : total (summaryStep st r) = total st
              /\ withCloudTrail (summaryStep st r)
                   = withCloudTrail st + (if hasTrail r then 1 else 0)
              /\ generalServiceExceptions (summaryStep st r)
                   = generalServiceExceptions st + (if flagged r then 1 else 0)).
    { unfold summaryStep, hasTrail, flagged, Int64.add.
      destruct (CE_CloudTrailEvent r), (IsGeneralServiceException (CE_StackError r));
        simpl; rewrite ?wrap_in_range; try lia;
        unfold Int64.in_range, Int64.min_int, Int64.max_int in *; lia. }
    destruct Hstep as (Ht & Hw' & Hg').
    destruct (IH (summaryStep st r)) as (IHt & IHw & IHg);
      try (rewrite ?Hw', ?Hg'; destruct (hasTrail r), (flagged r); lia).
    rewrite IHt, IHw, IHg, Ht, Hw', Hg'. cbn [List.filter].
    destruct (hasTrail r), (flagged r); cbn [length]; lia.
Qed.

Lemma filter_length_le {A : Type} (p : A -> bool) (l : list A) :
  (length (List.filter p l) <= length l)%nat.
Proof.
  induction l as [|x l IH]; simpl; [lia|]. destruct (p x); simpl; lia.
Qed.

Lemma summary_counts (correlatedErrors : list CorrelatedError) :
  Z.of_nat (length correlatedErrors) <= Int64.max_int ->
  total (GetCorrelationSummary correlatedErrors) = Z.of_nat (length correlatedErrors)
  /\ withCloudTrail (GetCorrelationSummary correlatedErrors)
       = Z.of_nat (length (List.filter hasTrail correlatedErrors))
  /\ generalServiceExceptions (GetCorrelationSummary correlatedErrors)
       = Z.of_nat (length (List.filter flagged correlatedErrors)).
Proof.
  intros Hlen. unfold GetCorrelationSummary.
  destruct (summary_fold correlatedErrors
              {| total := Z.of_nat (length correlatedErrors);
                 withCloudTrail := 0; generalServiceExceptions := 0 |})
    as (Ht & Hw & Hg); simpl; try lia.
  rewrite Ht, Hw, Hg. simpl. repeat split; lia.
Qed.

(** For a slice of results, whose length is an [int], the summary is the
    number of results, the number of results with a matched event and the
    number of results whose failure is flagged as generic; the two counts
    never exceed the total. *)
Theorem GetCorrelationSummary_counts (correlatedErrors : list CorrelatedError) :
  Z.of_nat (length correlatedErrors) <= Int64.max_int ->
  total (GetCorrelationSummary correlatedErrors) = Z.of_nat (length correlatedErrors)
  /\ withCloudTrail (GetCorrelationSummary correlatedErrors)
       = Z.of_nat (length (List.filter hasTrail correlatedErrors))
  /\ generalServiceExceptions (GetCorrelationSummary correlatedErrors)
       = Z.of_nat (length (List.filter flagged correlatedErrors))
  /\ 0 <= withCloudTrail (GetCorrelationSummary correlatedErrors)
       <= total (GetCorrelationSummary correlatedErrors)
  /\ 0 <= generalServiceExceptions (GetCorrelationSummary correlatedErrors)
       <= total (GetCorrelationSummary correlatedErrors).
Proof.
  intros Hlen. destruct (summary_counts correlatedErrors Hlen) as (Ht & Hw & Hg).
  rewrite Ht, Hw, Hg.
  pose proof (filter_length_le hasTrail correlatedErrors).
  pose proof (filter_length_le flagged correlatedErrors).
  repeat split; lia.
Qed.

Lemma isCandidate_spec (cfnError : StackError) (config : CorrelationConfig)
    (event : CloudTrailEvent) :
  isCandidate cfnError config event = true <-> candidate cfnError config event.
Proof.
  unfold isCandidate, candidate. rewrite andb_true_iff, Z.leb_le, Z.ltb_lt. reflexivity.
Qed.

Lemma FindMatching_is_Some (cfnError : StackError) (trailEvents : list CloudTrailEvent)
    (config : CorrelationConfig) :
  match FindMatchingTrailEventWithConfig cfnError trailEvents config with
  | Some _ => true
  | None => false
  end = existsb (isCandidate cfnError config) trailEvents.
Proof.
  pose proof (FindMatching_inv cfnError trailEvents config) as Hinv.
  destruct (FindMatchingTrailEventWithConfig cfnError trailEvents config) as [p|].
  - symmetry. apply existsb_exists. exists (snd p).
    destruct Hinv as (Hl & Hc & _). split.
    + apply list_elem_of_In, list_elem_of_lookup. exists (fst p). exact Hl.
    + apply isCandidate_spec. exact Hc.
  - symmetry. apply not_true_is_false. intros H.
    apply existsb_exists in H as (event & Hin & Hc).
    apply list_elem_of_In, list_elem_of_lookup in Hin as [j Hj].
    apply (Hinv j event Hj). apply isCandidate_spec. exact Hc.
Qed.

Lemma filter_map_length {A B : Type} (p : B -> bool) (f : A -> B) (l : list A) :
  length (List.filter p (map f l)) = length (List.filter (fun a => p (f a)) l).
Proof.
  induction l as [|a l IH]; simpl; [reflexivity|].
  destruct (p (f a)); simpl; rewrite IH; reflexivity.
Qed.

Lemma filter_none {A : Type} (l : list A) : List.filter (fun _ : A => false) l = [].
Proof. induction l as [|a l IH]; simpl; [reflexivity | exact IH]. Qed.

(** The summary of a correlation: the total is the number of failures, the
    generic count is the number of failures flagged as generic, and the
    count of matches is the number of failures for which some event passes
    the window test with a positive score, zero when there are no events. *)
Theorem summary_of_correlation (cfnErrors : list StackError)
    (trailEvents : list CloudTrailEvent) (config : CorrelationConfig) :
  Z.of_nat (length cfnErrors) <= Int64.max_int ->
  total (GetCorrelationSummary (CorrelateErrorsWithConfig cfnErrors trailEvents config))
    = Z.of_nat (length cfnErrors)
  /\ generalServiceExceptions
       (GetCorrelationSummary (CorrelateErrorsWithConfig cfnErrors trailEvents config))
     = Z.of_nat (length (List.filter IsGeneralServiceException cfnErrors))
  /\ withCloudTrail
       (GetCorrelationSummary (CorrelateErrorsWithConfig cfnErrors trailEvents config))
     = Z.of_nat (length (List.filter
                           (fun cfnError =>
                              existsb (isCandidate cfnError config) trailEvents)
                           cfnErrors))
  /\ (trailEvents = [] ->
      withCloudTrail
        (GetCorrelationSummary (CorrelateErrorsWithConfig cfnErrors trailEvents config))
      = 0).
Proof.
  intros Hlen.
  assert (Hlen' : Z.of_nat (length (CorrelateErrorsWithConfig cfnErrors trailEvents config))
                  <= Int64.max_int).
  { rewrite CorrelateErrorsWithConfig_map, length_map. exact Hlen. }
  destruct (summary_counts _ Hlen') as (Ht & Hw & Hg).
  rewrite Ht, Hw, Hg, CorrelateErrorsWithConfig_map, length_map, !filter_map_length.
  assert (Hflag : List.filter (fun a => flagged (correlateOne trailEvents config a)) cfnErrors
                  = List.filter IsGeneralServiceException cfnErrors).
  { apply filter_ext. intros a. unfold flagged. rewrite correlateOne_StackError. reflexivity. }
  assert (Htrail : List.filter (fun a => hasTrail (correlateOne trailEvents config a)) cfnErrors
                   = List.filter (fun cfnError =>
                                    existsb (isCandidate cfnError config) trailEvents)
                       cfnErrors).
  { apply filter_ext. intros a. unfold hasTrail. rewrite correlateOne_CloudTrailEvent.
    apply FindMatching_is_Some. }
  rewrite Hflag, Htrail. split; [reflexivity|]. split; [reflexivity|].
  split; [reflexivity|].
  intros ->. simpl. rewrite filter_none. reflexivity.
Qed.

(** ** Results with a matched event *)

(** A result with a matched event takes its detailed message from the
    event: the message is [extractDetailedMessage] of the event and is not
    empty, so the fall-back to the failure's reason is never taken for it;
    the event is an element of the events given and carries error
    information. *)
Theorem matched_result_message_from_event (cfnErrors : list StackError)
    (trailEvents : list CloudTrailEvent) (config : CorrelationConfig)
    (r : CorrelatedError) (p : EventPtr) :
  In r (CorrelateErrorsWithConfig cfnErrors trailEvents config) ->
  CE_CloudTrailEvent r = Some p ->
  DetailedMessage r = extractDetailedMessage (snd p)
  /\ DetailedMessage r <> EmptyString
  /\ trailEvents !! fst p = Some (snd p)
  /\ carriesErrorInformation (snd p).
Proof.
  rewrite CorrelateErrorsWithConfig_map, in_map_iff.
  intros (cfnError & <- & _).
  rewrite correlateOne_CloudTrailEvent, correlateOne_DetailedMessage. intros Hp.
  rewrite Hp.
  pose proof (FindMatching_inv cfnError trailEvents config) as Hinv.
  rewrite Hp in Hinv. destruct Hinv as (Hl & [_ Hpos] & _).
  assert (Hinfo : carriesErrorInformation (snd p))
    by (apply hasErrorInformation_spec, (calculateMatchScore_positive cfnError); exact Hpos).
  pose proof (proj2 (extractDetailedMessage_nonempty (snd p)) Hinfo) as Hne.
  apply eqb_empty_false in Hne. rewrite Hne.
  apply eqb_empty_false in Hne. auto.
Qed.

(** ** The score and the window *)

(** The score is 0 exactly for an event without error information and is
    otherwise 1, 3, 4 or 6; it is 4 or more exactly when the event has error
    information and the resource identifier matches. *)
Theorem calculateMatchScore_values (cfnError : StackError) (trailEvent : CloudTrailEvent) :
  (calculateMatchScore cfnError trailEvent = 0 <-> ~ carriesErrorInformation trailEvent)
  /\ (calculateMatchScore cfnError trailEvent = 0
      \/ calculateMatchScore cfnError trailEvent = 1
      \/ calculateMatchScore cfnError trailEvent = 3
      \/ calculateMatchScore cfnError trailEvent = 4
      \/ calculateMatchScore cfnError trailEvent = 6)
  /\ (4 <= calculateMatchScore cfnError trailEvent <->
      carriesErrorInformation trailEvent
      /\ matchesResourceIdentifier cfnError trailEvent = true).
Proof.
  rewrite <- hasErrorInformation_spec, calculateMatchScore_cases.
  destruct (hasErrorInformation trailEvent),
           (matchesResourceIdentifier cfnError trailEvent),
           (matchesResourceType cfnError trailEvent);
    repeat split; intros; try lia; try tauto; try discriminate;
    try (intuition congruence); intuition lia.
Qed.

(** A wider window never loses a match: if an event is matched under
    [config], some event is matched under every configuration with a window
    at least as wide, with a score at least as high. *)
Theorem wider_window_keeps_a_match (cfnError : StackError)
    (trailEvents : list CloudTrailEvent) (config config' : CorrelationConfig)
    (p : EventPtr) :
  TimeWindow config <= TimeWindow config' ->
  FindMatchingTrailEventWithConfig cfnError trailEvents config = Some p ->
  exists p' : EventPtr,
    FindMatchingTrailEventWithConfig cfnError trailEvents config' = Some p'
    /\ calculateMatchScore cfnError (snd p) <= calculateMatchScore cfnError (snd p').
Proof.
  intros Hw Hp.
  pose proof (FindMatching_inv cfnError trailEvents config) as Hinv.
  rewrite Hp in Hinv. destruct Hinv as (Hl & [Hin Hpos] & _).
  assert (Hc' : candidate cfnError config' (snd p)) by (split; [lia | exact Hpos]).
  pose proof (FindMatching_inv cfnError trailEvents config') as Hinv'.
  destruct (FindMatchingTrailEventWithConfig cfnError trailEvents config') as [p'|].
  - exists p'. split; [reflexivity|].
    destruct Hinv' as (_ & _ & Hall). apply (Hall (fst p) (snd p) Hl Hc').
  - exfalso. apply (Hinv' (fst p) (snd p) Hl Hc').
Qed.

(** ** Service names *)

Lemma append_cons (c : ascii) (a b : string) :
  String.append (String c a) b = String c (String.append a b).
Proof. reflexivity. Qed.

Lemma append_empty_l (s : string) : String.append EmptyString s = s.
Proof. reflexivity. Qed.

Lemma append_empty_r (s : string) : String.append s EmptyString = s.
Proof.
  induction s as [|c s IH]; [reflexivity|]. rewrite append_cons, IH. reflexivity.
Qed.

Lemma append_assoc (a b c : string) :
  String.append (String.append a b) c = String.append a (String.append b c).
Proof.
  induction a as [|x a IH]; [reflexivity|]. rewrite !append_cons, IH. reflexivity.
Qed.

Lemma ToLower_empty : ToLower EmptyString = EmptyString.
Proof. reflexivity. Qed.

Lemma ToLower_ascii (s : string) : isASCII s = true -> ToLower s = lowerASCII s.
Proof. unfold ToLower. intros ->. reflexivity. Qed.

Lemma splitFrom_nonempty (sep : string) (skip : nat) (cur s : string) :
  (1 <= length (splitFrom sep skip cur s))%nat.
Proof.
  revert skip cur. induction s as [|c s IH]; intros skip cur; simpl.
  - lia.
  - destruct skip as [|k]; [|apply IH].
    destruct (HasPrefix (String c s) sep); [simpl; lia | apply IH].
Qed.

(** Without an occurrence of the separator the text is the only piece. *)
Lemma splitFrom_no_separator (sep cur s : string) :
  Contains s sep = false -> splitFrom sep 0 cur s = [String.append cur s].
Proof.
  revert cur. induction s as [|c s IH]; intros cur H.
  - simpl. rewrite append_empty_r. reflexivity.
  - cbn [Contains] in H. apply orb_false_iff in H as [Hp Hc].
    cbn [splitFrom]. rewrite Hp, (IH _ Hc), append_assoc. reflexivity.
Qed.

(** With an occurrence of a non-empty separator there are two pieces or
    more. *)
Lemma splitFrom_separator (sep cur s : string) :
  sep <> EmptyString -> Contains s sep = true ->
  (2 <= length (splitFrom sep 0 cur s))%nat.
Proof.
  intros Hsep. revert cur. induction s as [|c s IH]; intros cur H.
  - destruct sep; [contradiction | discriminate].
  - cbn [Contains] in H. cbn [splitFrom].
    destruct (HasPrefix (String c s) sep) eqn:Hp.
    + cbn [length]. pose proof (splitFrom_nonempty sep (String.length sep - 1) EmptyString s).
      lia.
    + simpl in H. apply IH. exact H.
Qed.

(** [extractServiceName] never returns "wisdom"; it returns the empty
    string for a resource type without "::"; and a resource type with "::"
    has a second segment, whose lower-case form is returned, "qconnect"
    taking the place of "wisdom". *)
Theorem extractServiceName_cases (resourceType : string) :
  extractServiceName resourceType <> "wisdom"
  /\ (Contains resourceType "::" = false -> extractServiceName resourceType = EmptyString)
  /\ (Contains resourceType "::" = true ->
      exists segment : string,
        Split resourceType "::" !! 1%nat = Some segment
        /\ extractServiceName resourceType
             = if String.eqb (ToLower segment) "wisdom" then "qconnect"
               else ToLower segment).
Proof.
  unfold extractServiceName, Split. split; [|split].
  - destruct (2 <=? length (splitFrom "::" 0 EmptyString resourceType))%nat; [|discriminate].
    destruct (String.eqb_spec
                (ToLower (nth 1 (splitFrom "::" 0 EmptyString resourceType) EmptyString))
                "wisdom") as [He|He]; [discriminate | exact He].
  - intros H. rewrite (splitFrom_no_separator _ _ _ H). reflexivity.
  - intros H.
    pose proof (splitFrom_separator "::" EmptyString resourceType ltac:(discriminate) H) as Hlen.
    destruct (splitFrom "::" 0 EmptyString resourceType) as [|first [|second rest]];
      simpl in Hlen; try lia.
    exists second. split; reflexivity.
Qed.

Lemma serviceLoop_app (serviceName : string) (events acc : list CloudTrailEvent) :
  serviceLoop serviceName events acc
    = (acc ++ List.filter (fun event => matchesService event serviceName) events)%list.
Proof.
  revert acc. induction events as [|event rest IH]; intros acc; simpl.
  - rewrite app_nil_r. reflexivity.
  - rewrite IH. destruct (matchesService event serviceName); [|reflexivity].
    rewrite <- app_assoc. reflexivity.
Qed.

Lemma filter_all {A : Type} (p : A -> bool) (l : list A) :
  (forall a : A, p a = true) -> List.filter p l = l.
Proof.
  intros H. induction l as [|a l IH]; simpl; [reflexivity|]. rewrite H, IH. reflexivity.
Qed.

Lemma matchesService_empty (event : CloudTrailEvent) :
  matchesService event EmptyString = true.
Proof. unfold matchesService. rewrite ToLower_empty. apply Contains_empty. Qed.

(** [SearchForStackErrors] asks the lookup for the events of the user
    [AWSCloudFormation] from ten minutes before to ten minutes after the
    failure.  An error of the lookup is returned with no events; otherwise
    the events returned are, in their order, those of the lookup whose source
    contains the service name of the failure's resource type, which is all of
    them when no service name can be extracted. *)
Theorem SearchForStackErrors_selects_service {E : Type}
    (searchByUsername : TimeRange -> string -> list CloudTrailEvent * option E)
    (stackError : StackError) :
  let lookup :=
    searchByUsername
      {| StartTime := Timestamp stackError - 10 * time.Minute;
         EndTime := Timestamp stackError + 10 * time.Minute |}
      "AWSCloudFormation" in
  match snd lookup with
  | Some e => SearchForStackErrors searchByUsername stackError = ([], Some e)
  | None =>
      SearchForStackErrors searchByUsername stackError
        = (List.filter
             (fun event =>
                matchesService event (extractServiceName (ResourceType stackError)))
             (fst lookup), None)
      /\ (extractServiceName (ResourceType stackError) = EmptyString ->
          SearchForStackErrors searchByUsername stackError = (fst lookup, None))
  end.
Proof.
  unfold SearchForStackErrors, timeAdd.
  replace (Timestamp stackError + -10 * time.Minute)
    with (Timestamp stackError - 10 * time.Minute) by lia.
  cbv zeta.
  destruct (searchByUsername _ _) as [events [e|]]; simpl; [reflexivity|].
  destruct (String.eqb_spec (extractServiceName (ResourceType stackError)) EmptyString)
    as [He|He]; simpl.
  - rewrite He. split; [|reflexivity].
    rewrite (filter_all _ events matchesService_empty). reflexivity.
  - rewrite serviceLoop_app. simpl. split; [reflexivity | intros H; contradiction].
Qed.

(** ** The service filter and the scorer on ASCII resource types *)

Lemma lowerByte_colon (c : ascii) : Ascii.eqb ":" (lowerByte c) = Ascii.eqb ":" c.
Proof. destruct c as [[] [] [] [] [] [] [] []]; reflexivity. Qed.

Lemma lowerByte_idem (c : ascii) : lowerByte (lowerByte c) = lowerByte c.
Proof. destruct c as [[] [] [] [] [] [] [] []]; reflexivity. Qed.

Lemma lowerByte_ascii (c : ascii) :
  (N_of_ascii (lowerByte c) <? 128)%N = (N_of_ascii c <? 128)%N.
Proof. destruct c as [[] [] [] [] [] [] [] []]; reflexivity. Qed.

Lemma lowerASCII_idem (s : string) : lowerASCII (lowerASCII s) = lowerASCII s.
Proof.
  induction s as [|c s IH]; simpl; [reflexivity|]. rewrite lowerByte_idem, IH. reflexivity.
Qed.

Lemma isASCII_lower (s : string) : isASCII (lowerASCII s) = isASCII s.
Proof.
  induction s as [|c s IH]; simpl; [reflexivity|]. rewrite lowerByte_ascii, IH. reflexivity.
Qed.

Lemma lowerASCII_app (a b : string) :
  lowerASCII (String.append a b) = String.append (lowerASCII a) (lowerASCII b).
Proof.
  induction a as [|x a IH]; [reflexivity|].
  rewrite append_cons. cbn [lowerASCII]. rewrite append_cons, IH. reflexivity.
Qed.

Lemma isASCII_app (a b : string) :
  isASCII (String.append a b) = isASCII a && isASCII b.
Proof.
  induction a as [|x a IH]; [reflexivity|].
  rewrite append_cons. cbn [isASCII]. rewrite IH, andb_assoc. reflexivity.
Qed.

Lemma HasPrefix_lower_colons (s : string) :
  HasPrefix (lowerASCII s) "::" = HasPrefix s "::".
Proof.
  destruct s as [|a [|b s]]; cbn [lowerASCII HasPrefix]; rewrite ?lowerByte_colon;
    reflexivity.
Qed.

(** Lower-casing ASCII letters does not move the separators. *)
Lemma splitFrom_lower (s : string) (skip : nat) (cur : string) :
  splitFrom "::" skip (lowerASCII cur) (lowerASCII s)
    = map lowerASCII (splitFrom "::" skip cur s).
Proof.
  revert skip cur. induction s as [|c s IH]; intros skip cur.
  - reflexivity.
  - cbn [lowerASCII splitFrom]. destruct skip as [|k]; [|apply IH].
    change (String (lowerByte c) (lowerASCII s)) with (lowerASCII (String c s)).
    rewrite HasPrefix_lower_colons.
    destruct (HasPrefix (String c s) "::").
    + cbn [map]. f_equal. apply (IH _ EmptyString).
    + rewrite <- IH, lowerASCII_app. reflexivity.
Qed.

Lemma splitFrom_ascii (sep : string) (s : string) (skip : nat) (cur : string) :
  isASCII cur = true -> isASCII s = true ->
  Forall (fun piece => isASCII piece = true) (splitFrom sep skip cur s).
Proof.
  revert skip cur. induction s as [|c s IH]; intros skip cur Hcur Hs.
  - constructor; [exact Hcur | constructor].
  - cbn [isASCII] in Hs. apply andb_true_iff in Hs as [Hc Hs].
    cbn [splitFrom]. destruct skip as [|k]; [|apply IH; assumption].
    destruct (HasPrefix (String c s) sep).
    + constructor; [exact Hcur | apply IH; [reflexivity | exact Hs]].
    + apply IH; [|exact Hs]. rewrite isASCII_app, Hcur. simpl. rewrite Hc. reflexivity.
Qed.

(** For an ASCII resource type with "::" and an event with a source, both
    matchers look for the lower-cased second segment in the lower-cased
    source, except that [extractServiceName] puts "qconnect" for "wisdom". *)
Lemma service_matchers_on_ascii (cfnError : StackError) (trailEvent : CloudTrailEvent) :
  isASCII (ResourceType cfnError) = true ->
  Contains (ResourceType cfnError) "::" = true ->
  EventSource trailEvent <> EmptyString ->
  exists segment : string,
    Split (ResourceType cfnError) "::" !! 1%nat = Some segment
    /\ matchesResourceType cfnError trailEvent
         = Contains (ToLower (EventSource trailEvent)) (lowerASCII segment)
    /\ matchesService trailEvent (extractServiceName (ResourceType cfnError))
         = Contains (ToLower (EventSource trailEvent))
             (if String.eqb (lowerASCII segment) "wisdom" then "qconnect"
              else lowerASCII segment).
Proof.
  intros Hascii Hsep Hsrc.
  pose proof (splitFrom_separator "::" EmptyString _ ltac:(discriminate) Hsep) as Hlen.
  pose proof (splitFrom_ascii "::" _ 0 EmptyString eq_refl Hascii) as Hall.
  pose proof (splitFrom_lower (ResourceType cfnError) 0 EmptyString) as Hlow.
  assert (Hne : ResourceType cfnError <> EmptyString)
    by (intros He; rewrite He in Hsep; discriminate).
  unfold matchesResourceType, matchesService, extractServiceName, Split.
  apply eqb_empty_false in Hne, Hsrc. rewrite Hne, Hsrc. cbn [orb].
  rewrite (ToLower_ascii _ Hascii).
  change (lowerASCII EmptyString) with EmptyString in Hlow. rewrite Hlow, length_map.
  destruct (splitFrom "::" 0 EmptyString (ResourceType cfnError))
    as [|first [|second rest]]; simpl in Hlen; try lia.
  exists second. split; [reflexivity|].
  apply Forall_cons in Hall as [_ Hall]. apply Forall_cons in Hall as [Hsecond _].
  cbn [length Nat.leb map nth].
  assert (Hlower : isASCII (lowerASCII second) = true) by (rewrite isASCII_lower; exact Hsecond).
  rewrite (ToLower_ascii _ Hlower), lowerASCII_idem, (ToLower_ascii _ Hsecond).
  split; [reflexivity|].
  destruct (String.eqb (lowerASCII second) "wisdom"); [reflexivity|].
  rewrite (ToLower_ascii _ Hlower), lowerASCII_idem. reflexivity.
Qed.

Lemma second_segment_has_separator (resourceType segment : string) :
  Split resourceType "::" !! 1%nat = Some segment -> Contains resourceType "::" = true.
Proof.
  intros Hseg. destruct (Contains resourceType "::") eqn:Hc; [reflexivity|].
  unfold Split in Hseg. rewrite (splitFrom_no_separator _ _ _ Hc) in Hseg. discriminate.
Qed.

(** For an ASCII resource type whose second segment is not "wisdom" in any
    case, the scorer's resource-type test on an event with a source is the
    test of the service filter of [SearchForStackErrors]: the events that
    pass the filter are the events that get the bonus. *)
Theorem scorer_agrees_with_service_filter (cfnError : StackError)
    (trailEvent : CloudTrailEvent) (segment : string) :
  isASCII (ResourceType cfnError) = true ->
  Split (ResourceType cfnError) "::" !! 1%nat = Some segment ->
  lowerASCII segment <> "wisdom" ->
  EventSource trailEvent <> EmptyString ->
  matchesResourceType cfnError trailEvent
    = matchesService trailEvent (extractServiceName (ResourceType cfnError)).
Proof.
  intros Hascii Hseg Hw Hsrc.
  pose proof (second_segment_has_separator _ _ Hseg) as Hsep.
  destruct (service_matchers_on_ascii cfnError trailEvent Hascii Hsep Hsrc)
    as (segment' & Hseg' & Ht & Hs).
  rewrite Hseg in Hseg'. injection Hseg' as <-.
  rewrite Ht, Hs. apply String.eqb_neq in Hw. rewrite Hw. reflexivity.
Qed.

(** For an ASCII resource type whose second segment is "wisdom" in some
    case, the service filter of [SearchForStackErrors] keeps the events
    whose source contains "qconnect", and the scorer gives the resource-type
    bonus to the events whose source contains "wisdom". *)
Theorem wisdom_filter_and_scorer_differ (cfnError : StackError)
    (trailEvent : CloudTrailEvent) (segment : string) :
  isASCII (ResourceType cfnError) = true ->
  Split (ResourceType cfnError) "::" !! 1%nat = Some segment ->
  lowerASCII segment = "wisdom" ->
  EventSource trailEvent <> EmptyString ->
  matchesService trailEvent (extractServiceName (ResourceType cfnError))
    = Contains (ToLower (EventSource trailEvent)) "qconnect"
  /\ matchesResourceType cfnError trailEvent
       = Contains (ToLower (EventSource trailEvent)) "wisdom".
Proof.
  intros Hascii Hseg Hw Hsrc.
  pose proof (second_segment_has_separator _ _ Hseg) as Hsep.
  destruct (service_matchers_on_ascii cfnError trailEvent Hascii Hsep Hsrc)
    as (segment' & Hseg' & Ht & Hs).
  rewrite Hseg in Hseg'. injection Hseg' as <-.
  rewrite Ht, Hs, Hw. split; reflexivity.
Qed.

(** ** [ExtractErrors] *)

Lemma extractLoop_app (events : list StackEvent) (acc : list StackError) :
  extractLoop events acc
    = (acc ++ map toStackError
                (List.filter (fun event => isFailedStatus (SE_ResourceStatus event)) events))%list.
Proof.
  revert acc. induction events as [|event rest IH]; intros acc; simpl.
  - rewrite app_nil_r. reflexivity.
  - destruct (isFailedStatus (SE_ResourceStatus event)); simpl; rewrite IH; [|reflexivity].
    rewrite <- app_assoc. reflexivity.
Qed.

(** [isFailedStatus] is true for the six failed statuses and for no other
    status. *)
Lemma isFailedStatus_spec (status : string) :
  isFailedStatus status = true <-> In status failedStatusList.
Proof.
  unfold isFailedStatus, failedStatuses, failedStatusList.
  rewrite !lookup_insert, lookup_empty. simpl.
  repeat case_decide; subst; split; intros Hstatus; try reflexivity; try discriminate;
    try (intuition congruence); tauto.
Qed.

Lemma IsGeneralServiceException_reason (err1 err2 : StackError) :
  ResourceStatusReason err1 = ResourceStatusReason err2 ->
  IsGeneralServiceException_ err1 = IsGeneralServiceException_ err2.
Proof. unfold IsGeneralServiceException_. intros ->. reflexivity. Qed.

(** [ExtractErrors] returns, in the order of the events, one error per event
    with a failed status and none for the others.  Each error has one of the
    six failed statuses, its flag [IsGeneralServiceException] is what the
    classifier says about the error itself, and a flagged error has a
    reason. *)
Theorem ExtractErrors_spec (events : list StackEvent) :
  ExtractErrors events
    = map toStackError
        (List.filter (fun event => isFailedStatus (SE_ResourceStatus event)) events)
  /\ (length (ExtractErrors events) <= length events)%nat
  /\ forall err : StackError,
       In err (ExtractErrors events) ->
       In (ResourceStatus err) failedStatusList
       /\ IsGeneralServiceException err = IsGeneralServiceException_ err
       /\ (IsGeneralServiceException err = true ->
           ResourceStatusReason err <> EmptyString).
Proof.
  assert (Heq : ExtractErrors events
                = map toStackError
                    (List.filter (fun event => isFailedStatus (SE_ResourceStatus event))
                       events))
    by (unfold ExtractErrors; rewrite extractLoop_app; reflexivity).
  split; [exact Heq|]. rewrite Heq. split.
  - rewrite length_map. apply filter_length_le.
  - intros err Hin. apply in_map_iff in Hin as (event & <- & Hin).
    apply filter_In in Hin as [_ Hfailed]. split; [|split].
    + apply isFailedStatus_spec. exact Hfailed.
    + apply IsGeneralServiceException_reason. reflexivity.
    + cbn [toStackError IsGeneralServiceException ResourceStatusReason].
      unfold IsGeneralServiceException_. cbn [ResourceStatusReason].
      destruct (String.eqb_spec (safeString (SE_ResourceStatusReason event)) EmptyString)
        as [He|He]; [discriminate | intros _; exact He].
Qed.

(** ** [filterErrorsByDate] *)


Lemma startOfUTCDay_spec (t : time.Time) :
  startOfUTCDay t <= t < startOfUTCDay t + 24 * Hour
  /\ startOfUTCDay t mod (24 * Hour) = 0.
Proof.
  unfold startOfUTCDay.
  assert (Hday : 0 < 24 * Hour) by (vm_compute; reflexivity).
  pose proof (Z.mul_div_le t _ Hday). pose proof (Z.mul_succ_div_gt t _ Hday).
  split; [lia|]. apply Z.mod_mul. lia.
Qed.


(** ** [ValidateStackName] *)

(** [ValidateStackName] accepts exactly the names of one to 128 bytes that
    start with a letter and go on with letters, digits and hyphens.  The
    empty name is reported as empty; a name of more than 128 bytes is
    reported as too long whatever its bytes are; the format error is left for
    names of one to 128 bytes. *)
Theorem ValidateStackName_spec (name : string) :
  (ValidateStackName name = None <-> wellFormedStackName name)
  /\ (ValidateStackName name = Some ErrEmptyStackName <-> name = EmptyString)
  /\ (ValidateStackName name = Some ErrStackNameTooLong
      <-> (128 < String.length name)%nat)
  /\ (ValidateStackName name = Some ErrInvalidStackNameFormat
      <-> (1 <= String.length name <= 128)%nat /\ stackNameRegexMatch name = false).
Proof.
  assert (Hwf : wellFormedStackName name
                <-> (1 <= String.length name <= 128)%nat /\ stackNameRegexMatch name = true).
  { unfold wellFormedStackName. split.
    - intros (Hlen & c & rest & -> & Hc & Hrest). split; [exact Hlen|].
      simpl. rewrite Hc, Hrest. reflexivity.
    - intros [Hlen Hre]. split; [exact Hlen|].
      destruct name as [|c rest]; [discriminate|].
      apply andb_true_iff in Hre as [Hc Hrest]. exists c, rest. auto. }
  rewrite Hwf. clear Hwf. unfold ValidateStackName.
  destruct (String.eqb_spec name EmptyString) as [He|He].
  - subst name. simpl. split; [|split; [|split]]; split; intros Hv;
      try discriminate; try reflexivity; lia.
  - assert (Hlen : (1 <= String.length name)%nat)
      by (destruct name; [contradiction | simpl; lia]).
    destruct (Nat.ltb_spec 128 (String.length name)) as [Hlong|Hshort].
    + split; [|split; [|split]]; split; intros Hv;
        try discriminate; try reflexivity; try contradiction; lia.
    + destruct (stackNameRegexMatch name); simpl;
        split; [|split; [|split]| |split; [|split]]; split; intros Hv;
        try discriminate; try reflexivity; try contradiction; try lia;
        try (split; [lia | reflexivity]); destruct Hv; try discriminate; lia.
Qed.


(** ** [parseCloudTrailEvent] *)

Lemma assertMap_objectAt (eventData : JMap) (k : string) :
  (let '(m, ok) := assertMap (indexMap eventData k) in if ok then Some m else None)
    = objectAt eventData k.
Proof. unfold objectAt. destruct (indexMap eventData k) as [[| | | | |]|]; reflexivity. Qed.

Lemma assertString_stringAt (eventData : JMap) (k : string) :
  (let '(s, ok) := assertString (indexMap eventData k) in if ok then s else EmptyString)
    = stringAt eventData k.
Proof. unfold stringAt. destruct (indexMap eventData k) as [[| | | | |]|]; reflexivity. Qed.

(** The event built from a text that decodes. *)
Lemma parse_decoded (event : LookupEvent) (text : string) (eventData : JMap) :
  LE_CloudTrailEvent event = Some text ->
  jsonUnmarshal text = inl eventData ->
  parseCloudTrailEvent event =
    ({| EventTime := safeTime (LE_EventTime event);
        EventName := safeString (LE_EventName event);
        EventSource := safeString (LE_EventSource event);
        UserIdentity := objectAt eventData "userIdentity";
        ResponseElements := objectAt eventData "responseElements";
        ErrorCode := stringAt eventData "errorCode";
        ErrorMessage := stringAt eventData "errorMessage" |}, None).
Proof.
  intros Htext Hjson. unfold parseCloudTrailEvent. rewrite Htext, Hjson.
  rewrite <- (assertMap_objectAt eventData "userIdentity"),
          <- (assertMap_objectAt eventData "responseElements"),
          <- (assertString_stringAt eventData "errorCode"),
          <- (assertString_stringAt eventData "errorMessage").
  destruct (assertMap (indexMap eventData "userIdentity")) as [m1 [|]];
    destruct (assertMap (indexMap eventData "responseElements")) as [m2 [|]];
    destruct (assertString (indexMap eventData "errorCode")) as [c [|]];
    destruct (assertString (indexMap eventData "errorMessage")) as [msg [|]];
    reflexivity.
Qed.

(** The three ways [parseCloudTrailEvent] ends. *)
Lemma parse_cases (event : LookupEvent) :
  let plain :=
    {| EventTime := safeTime (LE_EventTime event);
       EventName := safeString (LE_EventName event);
       EventSource := safeString (LE_EventSource event);
       UserIdentity := None;
       ResponseElements := None;
       ErrorCode := EmptyString;
       ErrorMessage := EmptyString |} in
  (LE_CloudTrailEvent event = None /\ parseCloudTrailEvent event = (plain, None))
  \/ (exists text msg : string,
        LE_CloudTrailEvent event = Some text
        /\ jsonUnmarshal text = inr msg
        /\ parseCloudTrailEvent event
             = (plain, Some ("failed to parse CloudTrail event JSON: " ++ msg)))
  \/ (exists (text : string) (eventData : JMap),
        LE_CloudTrailEvent event = Some text
        /\ jsonUnmarshal text = inl eventData
        /\ parseCloudTrailEvent event =
             ({| EventTime := safeTime (LE_EventTime event);
                 EventName := safeString (LE_EventName event);
                 EventSource := safeString (LE_EventSource event);
                 UserIdentity := objectAt eventData "userIdentity";
                 ResponseElements := objectAt eventData "responseElements";
                 ErrorCode := stringAt eventData "errorCode";
                 ErrorMessage := stringAt eventData "errorMessage" |}, None)).
Proof.
  intros plain. destruct (LE_CloudTrailEvent event) as [text|] eqn:Htext.
  - destruct (jsonUnmarshal text) as [eventData|msg] eqn:Hjson.
    + right. right. exists text, eventData.
      split; [reflexivity|]. split; [exact Hjson|].
      apply (parse_decoded event text eventData Htext Hjson).
    + right. left. exists text, msg.
      split; [reflexivity|]. split; [exact Hjson|].
      unfold parseCloudTrailEvent. rewrite Htext, Hjson. reflexivity.
  - left. split; [reflexivity|]. unfold parseCloudTrailEvent. rewrite Htext. reflexivity.
Qed.

Lemma plain_event_no_information (t : time.Time) (name source : string) :
  ~ carriesErrorInformation
      {| EventTime := t; EventName := name; EventSource := source;
         UserIdentity := None; ResponseElements := None;
         ErrorCode := EmptyString; ErrorMessage := EmptyString |}.
Proof. intros [H | [H | H]]; apply H; reflexivity. Qed.

(** Error information of a parsed event comes from a decoded text. *)
Lemma parse_information (event : LookupEvent) :
  carriesErrorInformation (fst (parseCloudTrailEvent event)) ->
  exists (text : string) (eventData : JMap),
    LE_CloudTrailEvent event = Some text
    /\ jsonUnmarshal text = inl eventData
    /\ snd (parseCloudTrailEvent event) = None
    /\ (stringAt eventData "errorCode" <> EmptyString
        \/ stringAt eventData "errorMessage" <> EmptyString
        \/ extractMessageFromResponseElements (objectAt eventData "responseElements")
             <> EmptyString).
Proof.
  destruct (parse_cases event)
    as [[_ Hp] | [(text & msg & _ & _ & Hp) | (text & eventData & Htext & Hjson & Hp)]];
    rewrite Hp; simpl; intros Hinfo.
  - exfalso. apply (plain_event_no_information _ _ _ Hinfo).
  - exfalso. apply (plain_event_no_information _ _ _ Hinfo).
  - exists text, eventData. auto.
Qed.

(** [parseCloudTrailEvent] takes time, name and source from the lookup
    event, whatever the JSON text is.  It returns an error exactly when the
    text is present and does not decode.  The event it returns has error
    information exactly when the text decodes and holds a non-empty string at
    [errorCode] or [errorMessage], or an object at [responseElements] with an
    extractable message. *)
Theorem parseCloudTrailEvent_spec (event : LookupEvent) :
  EventTime (fst (parseCloudTrailEvent event)) = safeTime (LE_EventTime event)
  /\ EventName (fst (parseCloudTrailEvent event)) = safeString (LE_EventName event)
  /\ EventSource (fst (parseCloudTrailEvent event)) = safeString (LE_EventSource event)
  /\ (snd (parseCloudTrailEvent event) <> None <->
      exists text msg : string,
        LE_CloudTrailEvent event = Some text /\ jsonUnmarshal text = inr msg)
  /\ (carriesErrorInformation (fst (parseCloudTrailEvent event)) <->
      exists (text : string) (eventData : JMap),
        LE_CloudTrailEvent event = Some text
        /\ jsonUnmarshal text = inl eventData
        /\ (stringAt eventData "errorCode" <> EmptyString
            \/ stringAt eventData "errorMessage" <> EmptyString
            \/ extractMessageFromResponseElements
                 (objectAt eventData "responseElements") <> EmptyString)).
Proof.
  split; [|split; [|split; [|split]]].
  - destruct (parse_cases event) as [[_ Hp] | [(? & ? & _ & _ & Hp) | (? & ? & _ & _ & Hp)]];
      rewrite Hp; reflexivity.
  - destruct (parse_cases event) as [[_ Hp] | [(? & ? & _ & _ & Hp) | (? & ? & _ & _ & Hp)]];
      rewrite Hp; reflexivity.
  - destruct (parse_cases event) as [[_ Hp] | [(? & ? & _ & _ & Hp) | (? & ? & _ & _ & Hp)]];
      rewrite Hp; reflexivity.
  - destruct (parse_cases event)
      as [[Hnone Hp] | [(text & msg & Htext & Hjson & Hp)
                       | (text & eventData & Htext & Hjson & Hp)]];
      rewrite Hp; simpl; split.
    + intros H. contradiction.
    + intros (text & msg & Htext & _). congruence.
    + intros _. exists text, msg. auto.
    + intros _. discriminate.
    + intros H. contradiction.
    + intros (text' & msg & Htext' & Hjson'). congruence.
  - split.
    + intros Hinfo. destruct (parse_information event Hinfo)
        as (text & eventData & Htext & Hjson & _ & H).
      exists text, eventData. auto.
    + intros (text & eventData & Htext & Hjson & H).
      rewrite (parse_decoded event text eventData Htext Hjson). exact H.
Qed.

Lemma appendParsed_In (page : list LookupEvent) (acc : list CloudTrailEvent)
    (ctEvent : CloudTrailEvent) :
  In ctEvent (appendParsed page acc)
  <-> In ctEvent acc
      \/ exists event : LookupEvent,
           In event page /\ parseCloudTrailEvent event = (ctEvent, None).
Proof.
  revert acc. induction page as [|event rest IH]; intros acc; cbn [appendParsed].
  - split; [auto | intros [H | (e & [] & _)]; exact H].
  - destruct (parseCloudTrailEvent event) as [parsed [err|]] eqn:Hp; rewrite IH.
    + split.
      * intros [H | (e & Hin & He)]; [left; exact H | right; exists e; simpl; auto].
      * intros [H | (e & [<- | Hin] & He)]; [left; exact H | congruence |].
        right. exists e. auto.
    + rewrite in_app_iff. simpl. split.
      * intros [[H | [<- | []]] | (e & Hin & He)]; [left; exact H | |].
        -- right. exists event. auto.
        -- right. exists e. auto.
      * intros [H | (e & [<- | Hin] & He)]; [left; left; exact H | |].
        -- left. right. left. congruence.
        -- right. exists e. auto.
Qed.

(** The events that the search methods collect from a page and that
    [FilterErrorEvents] then keeps: each was parsed without error from a
    lookup event of the page whose JSON text decodes, and carries error
    information. *)
Theorem parsed_error_events_come_from_json (page : list LookupEvent)
    (ctEvent : CloudTrailEvent) :
  In ctEvent (FilterErrorEvents (appendParsed page [])) ->
  carriesErrorInformation ctEvent
  /\ exists (event : LookupEvent) (text : string) (eventData : JMap),
       In event page
       /\ parseCloudTrailEvent event = (ctEvent, None)
       /\ LE_CloudTrailEvent event = Some text
       /\ jsonUnmarshal text = inl eventData.
Proof.
  rewrite FilterErrorEvents_filter, filter_In, hasErrorInformation_spec.
  intros [Hin Hinfo]. split; [exact Hinfo|].
  apply appendParsed_In in Hin as [[] | (event & Hin & Hp)].
  pose proof (parse_information event) as Hspec.
  rewrite Hp in Hspec. simpl in Hspec.
  destruct (Hspec Hinfo) as (text & eventData & Htext & Hjson & _).
  exists event, text, eventData. auto.
Qed.

(** ** Independence of the failures *)

(** Each failure is correlated on its own: the result at a position is the
    result of correlating that failure alone, and the results for a
    concatenation of failures are the concatenation of the results. *)
Theorem correlation_is_per_failure (cfnErrors moreErrors : list StackError)
    (trailEvents : list CloudTrailEvent) (config : CorrelationConfig) :
  CorrelateErrorsWithConfig (cfnErrors ++ moreErrors) trailEvents config
    = (CorrelateErrorsWithConfig cfnErrors trailEvents config
       ++ CorrelateErrorsWithConfig moreErrors trailEvents config)%list
  /\ forall (i : nat) (cfnError : StackError),
       cfnErrors !! i = Some cfnError ->
       CorrelateErrorsWithConfig cfnErrors trailEvents config !! i
         = CorrelateErrorsWithConfig [cfnError] trailEvents config !! 0%nat.
Proof.
  rewrite !CorrelateErrorsWithConfig_map. split.
  - apply map_app.
  - intros i cfnError Hi. rewrite CorrelateErrorsWithConfig_map.
    change (map (correlateOne trailEvents config) cfnErrors)
      with (correlateOne trailEvents config <$> cfnErrors).
    rewrite list_lookup_fmap, Hi. reflexivity.
Qed.

(** With a window below zero nothing is matched, as long as every event is
    less than 2^63 nanoseconds away from the failure. *)
Theorem negative_window_matches_nothing (cfnError : StackError)
    (trailEvents : list CloudTrailEvent) (config : CorrelationConfig) :
  TimeWindow config < 0 ->
  (forall (j : nat) (other : CloudTrailEvent),
     trailEvents !! j = Some other ->
     representableDistance (Timestamp cfnError) (EventTime other)) ->
  FindMatchingTrailEventWithConfig cfnError trailEvents config = None.
Proof.
  intros Hneg Hrep.
  pose proof (FindMatching_inv cfnError trailEvents config) as Hinv.
  destruct (FindMatchingTrailEventWithConfig cfnError trailEvents config) as [p|];
    [|reflexivity].
  destruct Hinv as (Hl & [Hw _] & _).
  rewrite (absTimeDiff_representable _ _ (Hrep _ _ Hl)) in Hw.
  unfold timeDistance in Hw. lia.
Qed.

(** ** The resource identifier *)

(** [matchesResourceIdentifier] is true exactly when the logical resource
    id is not empty and its lower-case form occurs in the lower-cased event
    name, in the lower-cased error message, or in the lower-cased string at
    some key of the response elements; values that are not strings, and so
    the strings nested inside them, are not searched. *)
Theorem matchesResourceIdentifier_spec (cfnError : StackError)
    (trailEvent : CloudTrailEvent) :
  matchesResourceIdentifier cfnError trailEvent = true <->
    LogicalResourceId cfnError <> EmptyString
    /\ (Substring (ToLower (LogicalResourceId cfnError)) (ToLower (EventName trailEvent))
        \/ Substring (ToLower (LogicalResourceId cfnError))
             (ToLower (ErrorMessage trailEvent))
        \/ exists (m : gmap string JValue) (k strVal : string),
             ResponseElements trailEvent = Some m
             /\ m !! k = Some (JString strVal)
             /\ Substring (ToLower (LogicalResourceId cfnError)) (ToLower strVal)).
Proof.
  unfold matchesResourceIdentifier.
  destruct (String.eqb_spec (LogicalResourceId cfnError) EmptyString) as [Hid|Hid].
  { split; [discriminate | intros [H _]; contradiction]. }
  rewrite <- !Contains_spec.
  destruct (Contains (ToLower (EventName trailEvent))
              (ToLower (LogicalResourceId cfnError))); [tauto|].
  destruct (Contains (ToLower (ErrorMessage trailEvent))
              (ToLower (LogicalResourceId cfnError))); [tauto|].
  destruct (ResponseElements trailEvent) as [m|].
  - unfold anyStringValueContains. rewrite existsb_exists. split.
    + intros ([k v] & Hin & Hc). split; [exact Hid|]. right. right.
      apply list_elem_of_In, elem_of_map_to_list in Hin.
      destruct v as [| | |strVal| |]; simpl in Hc; try discriminate.
      exists m, k, strVal. rewrite <- Contains_spec. auto.
    + intros (_ & [H | [H | (m' & k & strVal & [= <-] & Hk & Hc)]]); try discriminate.
      exists (k, JString strVal). split.
      * apply list_elem_of_In, elem_of_map_to_list. exact Hk.
      * simpl. apply Contains_spec. exact Hc.
  - split; [discriminate|].
    intros (_ & [H | [H | (m' & k & strVal & Hm & _)]]); discriminate.
Qed.

(** ** Case of the reason *)

Lemma lowerASCII_empty (s : string) : lowerASCII s = EmptyString <-> s = EmptyString.
Proof. destruct s; simpl; split; intros H; (reflexivity || discriminate). Qed.

(** Two ASCII reasons that differ only in the case of their letters are
    classified alike. *)
Theorem IsGeneralServiceException_ignores_case (err1 err2 : StackError) :
  isASCII (ResourceStatusReason err1) = true ->
  isASCII (ResourceStatusReason err2) = true ->
  lowerASCII (ResourceStatusReason err1) = lowerASCII (ResourceStatusReason err2) ->
  IsGeneralServiceException_ err1 = IsGeneralServiceException_ err2.
Proof.
  intros H1 H2 Heq. unfold IsGeneralServiceException_.
  rewrite (ToLower_ascii _ H1), (ToLower_ascii _ H2), Heq.
  destruct (String.eqb_spec (ResourceStatusReason err1) EmptyString) as [He1|He1];
    destruct (String.eqb_spec (ResourceStatusReason err2) EmptyString) as [He2|He2];
    try reflexivity; exfalso.
  - apply He2, lowerASCII_empty. rewrite <- Heq, He1. reflexivity.
  - apply He1, lowerASCII_empty. rewrite Heq, He2. reflexivity.
Qed.

(** ** The loop of [GetLatestStack] *)

Lemma latestInv_step (seen : list StackSummary) (st : LatestState)
    (summary : StackSummary) :
  latestInv seen st ->
  (stackTimeOf summary <> None -> SS_StackName summary <> None) ->
  latestInv (seen ++ [summary]) (latestStep st summary).
Proof.
  intros [Hmax Hname] Hnamed. unfold latestStep.
  destruct (stackTimeOf summary) as [stackTime|] eqn:Htime.
  - unfold After. destruct (Z.ltb_spec (latestTime st) stackTime) as [Hlt|Hge]; split.
    + simpl. intros s t Hin Hs. apply in_app_iff in Hin as [Hin | [<- | []]].
      * pose proof (Hmax s t Hin Hs). lia.
      * rewrite Htime in Hs. injection Hs as <-. lia.
    + right. exists summary. simpl. split; [apply in_app_iff; right; left; reflexivity|].
      split; [exact Htime|].
      destruct (SS_StackName summary) as [name|]; [reflexivity|].
      exfalso. apply Hnamed; [discriminate | reflexivity].
    + intros s t Hin Hs. apply in_app_iff in Hin as [Hin | [<- | []]].
      * apply (Hmax s t Hin Hs).
      * rewrite Htime in Hs. injection Hs as <-. exact Hge.
    + destruct Hname as [H | (s & Hin & Hs)]; [left; exact H|].
      right. exists s. split; [apply in_app_iff; left; exact Hin | exact Hs].
  - split.
    + intros s t Hin Hs. apply in_app_iff in Hin as [Hin | [<- | []]].
      * apply (Hmax s t Hin Hs).
      * congruence.
    + destruct Hname as [H | (s & Hin & Hs)]; [left; exact H|].
      right. exists s. split; [apply in_app_iff; left; exact Hin | exact Hs].
Qed.

Lemma latestInv_fold (rest seen : list StackSummary) (st : LatestState) :
  latestInv seen st ->
  (forall summary : StackSummary,
     In summary rest -> stackTimeOf summary <> None -> SS_StackName summary <> None) ->
  latestInv (seen ++ rest) (fold_left latestStep rest st).
Proof.
  revert seen st. induction rest as [|summary rest IH]; intros seen st Hinv Hnamed.
  - rewrite app_nil_r. exact Hinv.
  - cbn [fold_left].
    replace (seen ++ summary :: rest)%list with ((seen ++ [summary]) ++ rest)%list
      by (rewrite <- app_assoc; reflexivity).
    apply IH.
    + apply latestInv_step; [exact Hinv|]. apply Hnamed. left. reflexivity.
    + intros s Hin. apply Hnamed. right. exact Hin.
Qed.

(** When every summary that has a time also has a name, the name that
    [GetLatestStack] returns is the name of a summary whose time is the
    latest of all, and a time after the zero time.  (The time of a summary
    is its [LastUpdatedTime], or its [CreationTime] when that is missing.) *)
Theorem GetLatestStack_returns_the_latest (summaries : list StackSummary)
    (name : string) :
  (forall summary : StackSummary,
     In summary summaries -> stackTimeOf summary <> None ->
     SS_StackName summary <> None) ->
  latestResult (latestOf summaries) = Some name ->
  exists (summary : StackSummary) (t : time.Time),
    In summary summaries
    /\ SS_StackName summary = Some name
    /\ stackTimeOf summary = Some t
    /\ 0 < t
    /\ forall (other : StackSummary) (t' : time.Time),
         In other summaries -> stackTimeOf other = Some t' -> t' <= t.
Proof.
  intros Hnamed Hres.
  assert (Hinit : latestInv [] {| latestStackName := EmptyString; latestTime := 0 |}).
  { split; [intros s t []|]. left. split; reflexivity. }
  pose proof (latestInv_fold summaries [] _ Hinit Hnamed) as [Hmax Hname].
  simpl in Hmax, Hname. fold (latestOf summaries) in Hmax, Hname.
  unfold latestResult in Hres.
  destruct (String.eqb_spec (latestStackName (latestOf summaries)) EmptyString)
    as [He|He]; [discriminate|]. injection Hres as <-.
  destruct Hname as [[H _] | (s & Hin & Hs & Hn)]; [contradiction|].
  exists s, (latestTime (latestOf summaries)).
  split; [exact Hin|]. split; [exact Hn|]. split; [exact Hs|]. split; [|exact Hmax].
  assert (Hpos : forall (l : list StackSummary) (st : LatestState),
            0 <= latestTime st ->
            (latestStackName st <> EmptyString -> 0 < latestTime st) ->
            0 <= latestTime (fold_left latestStep l st)
            /\ (latestStackName (fold_left latestStep l st) <> EmptyString ->
                0 < latestTime (fold_left latestStep l st))).
  { induction l as [|x l IH]; intros st H0 H1; [split; assumption|].
    cbn [fold_left]. apply IH.
    - unfold latestStep. destruct (stackTimeOf x) as [t|]; [|exact H0].
      unfold After. destruct (Z.ltb_spec (latestTime st) t); simpl; lia.
    - unfold latestStep. destruct (stackTimeOf x) as [t|]; [|exact H1].
      unfold After. destruct (Z.ltb_spec (latestTime st) t); simpl; [intros _; lia | exact H1]. }
  apply (Hpos summaries {| latestStackName := EmptyString; latestTime := 0 |});
    simpl; [lia | intros H; contradiction | exact He].
Qed.


End Model.

(** ** The theorems at concrete inputs *)

(** C5 at a failure with the empty reason whose only event carries no
    error information. *)
Lemma C5_no_match_keeps_reason_witness :
  [anonymousFailure] !! 0%nat = Some anonymousFailure
  /\ FindMatchingTrailEventWithConfig asciiOnly anonymousFailure [silentEvent] DefaultConfig
       = None
  /\ CorrelateErrorsWithConfig asciiOnly [anonymousFailure] [silentEvent] DefaultConfig
       !! 0%nat
       = Some {| CE_StackError := anonymousFailure;
                 CE_CloudTrailEvent := None;
                 DetailedMessage := EmptyString |}.
Proof.
  split; [reflexivity|]. split; [vm_compute; reflexivity|].
  apply (C5_no_match_keeps_reason asciiOnly [anonymousFailure] [silentEvent] DefaultConfig
           0%nat anonymousFailure).
  - reflexivity.
  - right. vm_compute. reflexivity.
Defined.

(** C9 at the end-to-end scenario of the specification. *)
Lemma C9_detailed_message_invariant_witness :
  In {| CE_StackError := widgetFailure;
        CE_CloudTrailEvent := Some (0%nat, widgetEvent);
        DetailedMessage := "Name already in use" |}
     (CorrelateErrorsWithConfig asciiOnly [widgetFailure] [widgetEvent] DefaultConfig)
  /\ "Name already in use" <> EmptyString.
Proof.
  assert (Hin : In {| CE_StackError := widgetFailure;
                      CE_CloudTrailEvent := Some (0%nat, widgetEvent);
                      DetailedMessage := "Name already in use" |}
                  (CorrelateErrorsWithConfig asciiOnly [widgetFailure] [widgetEvent]
                     DefaultConfig))
    by (left; vm_compute; reflexivity).
  split; [exact Hin|].
  apply (proj2 (C9_detailed_message_invariant asciiOnly [widgetFailure] [widgetEvent]
                  DefaultConfig _ Hin)).
  left. discriminate.
Defined.

(** C10 at a failure without logical resource id whose score reaches 3. *)
Lemma C10_empty_resource_id_witness :
  LogicalResourceId anonymousFailure = EmptyString
  /\ calculateMatchScore asciiOnly anonymousFailure widgetEvent = 3
  /\ matchesResourceIdentifier asciiOnly anonymousFailure widgetEvent = false
  /\ calculateMatchScore asciiOnly anonymousFailure widgetEvent <= 3.
Proof.
  split; [reflexivity|]. split; [vm_compute; reflexivity|].
  pose proof (C10_empty_resource_id_scores_at_most_3 asciiOnly anonymousFailure widgetEvent
                eq_refl) as (_ & Hm & Hle & _).
  split; [exact Hm | exact Hle].
Defined.

(** C6 at a payload with [message] at the top and inside [error]. *)
Lemma C6_extractMessage_priority_witness :
  extractMessageFromResponseElements (Some payloadBoth) = "top".
Proof.
  apply (proj2 (C6_extractMessage_priority (Some payloadBoth))
           payloadBoth (<["message" := JString "nested"]> ∅) "top" "nested").
  - reflexivity.
  - vm_compute. reflexivity.
  - discriminate.
  - vm_compute. reflexivity.
  - vm_compute. reflexivity.
  - discriminate.
Defined.

(** C7 at a payload with a number at [message] and a string at [error]:
    both are passed over and the message inside [Error] is found. *)
Lemma C7_extractMessage_total_witness :
  extractMessageFromResponseElements (Some payloadMistyped)
    = extractMessageFromResponseElements (Some (delete "message" payloadMistyped))
  /\ extractMessageFromResponseElements (Some payloadMistyped)
       = extractMessageFromResponseElements (Some (delete "error" payloadMistyped))
  /\ extractMessageFromResponseElements (Some payloadMistyped) = "deep".
Proof.
  destruct C7_extractMessage_total as (_ & Hstr & Hobj & _ & _).
  split; [|split].
  - apply (Hstr payloadMistyped "message" (JNumber (42 # 1))).
    + left. reflexivity.
    + vm_compute. reflexivity.
    + discriminate.
  - apply (Hobj payloadMistyped "error" (JString "oops")).
    + left. reflexivity.
    + vm_compute. reflexivity.
    + discriminate.
  - vm_compute. reflexivity.
Defined.

(** C8 at the reason "Internal Failure occurred". *)
Lemma C8_isGenericFailure_witness :
  exists p : string,
    In p genericPatterns
    /\ Substring p (ToLower asciiOnly "Internal Failure occurred").
Proof.
  apply (proj1 (proj1 (C8_isGenericFailure asciiOnly
                         (withReason "Internal Failure occurred")))).
  vm_compute. reflexivity.
Defined.

(** The matched event of the end-to-end scenario. *)
Lemma FindMatching_event_has_error_information_witness :
  FindMatchingTrailEventWithConfig asciiOnly widgetFailure [widgetEvent] DefaultConfig
    = Some (0%nat, widgetEvent)
  /\ carriesErrorInformation widgetEvent.
Proof.
  assert (H : FindMatchingTrailEventWithConfig asciiOnly widgetFailure [widgetEvent]
                DefaultConfig = Some (0%nat, widgetEvent))
    by (vm_compute; reflexivity).
  split; [exact H|].
  apply (FindMatching_event_has_error_information asciiOnly widgetFailure [widgetEvent]
           DefaultConfig (0%nat, widgetEvent) H).
Defined.

Lemma FindMatching_selects_nearest_when_representable_witness :
  timeDistance (Timestamp widgetFailure) (EventTime widgetEvent) <= TimeWindow DefaultConfig
  /\ bestCandidate asciiOnly timeDistance widgetFailure DefaultConfig [widgetEvent]
       (0%nat, widgetEvent).
Proof.
  apply (FindMatching_selects_nearest_when_representable asciiOnly widgetFailure
           [widgetEvent] DefaultConfig (0%nat, widgetEvent)).
  - intros j other Hj. destruct j as [|j]; simpl in Hj.
    + injection Hj as <-. vm_compute. discriminate.
    + discriminate.
  - vm_compute. reflexivity.
Defined.

Lemma FindMatching_finds_a_candidate_witness :
  exists p : EventPtr,
    FindMatchingTrailEventWithConfig asciiOnly widgetFailure [silentEvent; widgetEvent]
      DefaultConfig = Some p.
Proof.
  apply (FindMatching_finds_a_candidate asciiOnly widgetFailure [silentEvent; widgetEvent]
           DefaultConfig 1%nat widgetEvent).
  - reflexivity.
  - split; [vm_compute; discriminate | vm_compute; reflexivity].
Defined.

(** ** The further theorems at concrete inputs *)

Lemma GetCorrelationSummary_counts_witness :
  total (GetCorrelationSummary [widgetResult; widgetResult]) = 2
  /\ withCloudTrail (GetCorrelationSummary [widgetResult; widgetResult]) = 2
  /\ generalServiceExceptions (GetCorrelationSummary [widgetResult; widgetResult]) = 0.
Proof.
  destruct (GetCorrelationSummary_counts [widgetResult; widgetResult])
    as (Ht & Hw & Hg & _); [vm_compute; discriminate|].
  rewrite Ht, Hw, Hg. repeat split.
Defined.

Lemma summary_of_correlation_witness :
  total (GetCorrelationSummary
           (CorrelateErrorsWithConfig asciiOnly [widgetFailure; anonymousFailure]
              [widgetEvent] DefaultConfig)) = 2
  /\ withCloudTrail
       (GetCorrelationSummary
          (CorrelateErrorsWithConfig asciiOnly [widgetFailure; anonymousFailure] []
             DefaultConfig)) = 0.
Proof.
  split.
  - destruct (summary_of_correlation asciiOnly [widgetFailure; anonymousFailure]
                [widgetEvent] DefaultConfig) as (Ht & _); [vm_compute; discriminate|].
    rewrite Ht. reflexivity.
  - destruct (summary_of_correlation asciiOnly [widgetFailure; anonymousFailure]
                [] DefaultConfig) as (_ & _ & _ & Hnone); [vm_compute; discriminate|].
    apply Hnone. reflexivity.
Defined.

Lemma matched_result_message_from_event_witness :
  In widgetResult
     (CorrelateErrorsWithConfig asciiOnly [widgetFailure] [widgetEvent] DefaultConfig)
  /\ DetailedMessage widgetResult = extractDetailedMessage widgetEvent
  /\ carriesErrorInformation widgetEvent.
Proof.
  assert (Hin : In widgetResult
                  (CorrelateErrorsWithConfig asciiOnly [widgetFailure] [widgetEvent]
                     DefaultConfig)) by (left; vm_compute; reflexivity).
  split; [exact Hin|].
  destruct (matched_result_message_from_event asciiOnly [widgetFailure] [widgetEvent]
              DefaultConfig widgetResult (0%nat, widgetEvent) Hin eq_refl)
    as (Hm & _ & _ & Hinfo).
  split; [exact Hm | exact Hinfo].
Defined.

Lemma wider_window_keeps_a_match_witness :
  exists p' : EventPtr,
    FindMatchingTrailEventWithConfig asciiOnly widgetFailure [widgetEvent]
      {| TimeWindow := 10 * time.Minute |} = Some p'
    /\ calculateMatchScore asciiOnly widgetFailure widgetEvent
         <= calculateMatchScore asciiOnly widgetFailure (snd p').
Proof.
  apply (wider_window_keeps_a_match asciiOnly widgetFailure [widgetEvent] DefaultConfig
           {| TimeWindow := 10 * time.Minute |} (0%nat, widgetEvent)).
  - vm_compute. discriminate.
  - vm_compute. reflexivity.
Defined.

Lemma scorer_agrees_with_service_filter_witness :
  matchesResourceType asciiOnly lambdaFailure lambdaEvent
    = matchesService asciiOnly lambdaEvent
        (extractServiceName asciiOnly (ResourceType lambdaFailure))
  /\ matchesResourceType asciiOnly lambdaFailure lambdaEvent = true.
Proof.
  split; [|vm_compute; reflexivity].
  apply (scorer_agrees_with_service_filter asciiOnly lambdaFailure lambdaEvent "Lambda").
  - reflexivity.
  - reflexivity.
  - discriminate.
  - discriminate.
Defined.

Lemma wisdom_filter_and_scorer_differ_witness :
  matchesService asciiOnly qconnectEvent
    (extractServiceName asciiOnly (ResourceType wisdomFailure))
    = Contains (ToLower asciiOnly (EventSource qconnectEvent)) "qconnect"
  /\ matchesResourceType asciiOnly wisdomFailure qconnectEvent
       = Contains (ToLower asciiOnly (EventSource qconnectEvent)) "wisdom".
Proof.
  apply (wisdom_filter_and_scorer_differ asciiOnly wisdomFailure qconnectEvent "Wisdom").
  - reflexivity.
  - reflexivity.
  - reflexivity.
  - discriminate.
Defined.

Lemma parsed_error_events_come_from_json_witness :
  In sampleParsedEvent
     (FilterErrorEvents (appendParsed sampleDecoder [sampleLookupEvent] []))
  /\ carriesErrorInformation sampleParsedEvent.
Proof.
  assert (Hin : In sampleParsedEvent
                  (FilterErrorEvents (appendParsed sampleDecoder [sampleLookupEvent] [])))
    by (left; vm_compute; reflexivity).
  split; [exact Hin|].
  apply (parsed_error_events_come_from_json sampleDecoder [sampleLookupEvent]
           sampleParsedEvent Hin).
Defined.

Lemma negative_window_matches_nothing_witness :
  FindMatchingTrailEventWithConfig asciiOnly widgetFailure [widgetEvent]
    {| TimeWindow := -1 |} = None.
Proof.
  apply (negative_window_matches_nothing asciiOnly widgetFailure [widgetEvent]
           {| TimeWindow := -1 |}).
  - reflexivity.
  - intros j other Hj. destruct j as [|j]; simpl in Hj.
    + injection Hj as <-. vm_compute. discriminate.
    + discriminate.
Defined.

Lemma IsGeneralServiceException_ignores_case_witness :
  IsGeneralServiceException_ asciiOnly (withReason "INTERNAL FAILURE")
    = IsGeneralServiceException_ asciiOnly (withReason "internal failure").
Proof.
  apply (IsGeneralServiceException_ignores_case asciiOnly
           (withReason "INTERNAL FAILURE") (withReason "internal failure"));
    reflexivity.
Defined.

Lemma GetLatestStack_returns_the_latest_witness :
  latestResult (latestOf [olderStack; newerStack; untimedStack]) = Some "newer"
  /\ exists (summary : StackSummary) (t : time.Time),
       In summary [olderStack; newerStack; untimedStack]
       /\ SS_StackName summary = Some "newer"
       /\ stackTimeOf summary = Some t
       /\ 0 < t
       /\ forall (other : StackSummary) (t' : time.Time),
            In other [olderStack; newerStack; untimedStack] ->
            stackTimeOf other = Some t' -> t' <= t.
Proof.
  assert (Hres : latestResult (latestOf [olderStack; newerStack; untimedStack])
                 = Some "newer") by (vm_compute; reflexivity).
  split; [exact Hres|].
  apply (GetLatestStack_returns_the_latest [olderStack; newerStack; untimedStack] "newer");
    [|exact Hres].
  intros summary [<- | [<- | [<- | []]]] Ht; discriminate.
Defined.

